(** * pyWikiRacer: one-hop path search over cached page link records

    A shallow embedding of [wikiracing.py] (class [WikiRacer]) together with
    the [WikiPage] table of [models.py].

    - The remote MediaWiki endpoint is the parameter [requests_get]: what
      [session.get(url=API_URL, params=params).json()] evaluates to for given
      [params].  It is a function of the request, i.e. the remote corpus is
      taken to be stable while the modelled calls run.
    - Python exceptions are the type [exn]; code that may raise returns
      [result].
    - The database session is an explicit state: the rows of table
      [wikipage] in insertion order, threaded through the monad [M].  A
      commit is refused when the title does not fit its column.
    - Titles are [string]s (UTF-8 bytes).  Both entries of
      [TITLE_RED_FLAGS] are ASCII and no byte of a multi-byte UTF-8 sequence
      is below 128, so testing bytes agrees with testing code points. *)

From Stdlib Require Import String Ascii List Bool Arith Lia.
Import ListNotations.
Open Scope string_scope.
Open Scope list_scope.

(** ** Exceptions and results *)

Inductive exn : Type :=
| KeyError (key : string)               (* d[key] on a dict without key   *)
| IndexError                            (* l[0] on an empty list          *)
| RequestException                      (* session.get(...) or .json()    *)
| DataError                             (* session.commit()               *)
| InvalidPageException (page_title : string).

Inductive result (A : Type) : Type :=
| Ok (a : A)
| Raise (e : exn).

Arguments Ok {A} a.
Arguments Raise {A} e.

Definition rbind {A B} (r : result A) (k : A -> result B) : result B :=
  match r with
  | Ok a => k a
  | Raise e => Raise e
  end.

Declare Scope result_scope.
Delimit Scope result_scope with result.
Notation "x <- r ;; k" := (rbind r (fun x => k))
  (at level 61, r at next level, right associativity) : result_scope.

(** [d[key]] where the decoded JSON object may lack [key]. *)
Definition getitem {A} (key : string) (field : option A) : result A :=
  match field with
  | Some v => Ok v
  | None => Raise (KeyError key)
  end.

(** [[f x for x in l]] where [f] may raise: the first exception wins. *)
Fixpoint comprehension {A B} (f : A -> result B) (l : list A)
  : result (list B) :=
  match l with
  | [] => Ok []
  | x :: l' =>
      match f x with
      | Raise e => Raise e
      | Ok y =>
          match comprehension f l' with
          | Raise e => Raise e
          | Ok ys => Ok (y :: ys)
          end
      end
  end.

(** [__init__] of [InvalidPageException]: [self.page_title or 'this term']
    picks the default for a falsy (empty) title; [str(e)] is the message. *)
Definition message (page_title : string) : string :=
  ("Can't parse wikipedia page "
   ++ (if String.eqb page_title "" then "this term" else page_title)
   ++ ".")%string.

(** ** Module constants *)

Definition LINKS_PER_PAGE : nat := 200.
Definition TITLE_RED_FLAGS : list ascii := ["/"%char; ":"%char].

(** [char in TITLE_RED_FLAGS] *)
Definition red_flag (char : ascii) : bool :=
  existsb (Ascii.eqb char) TITLE_RED_FLAGS.

(** [term in links] *)
Definition py_in (term : string) (links : list string) : bool :=
  existsb (String.eqb term) links.

(** [l.insert(i, x)] for [i >= 0]: past the end it appends. *)
Definition list_insert {A} (i : nat) (x : A) (l : list A) : list A :=
  firstn i l ++ x :: skipn i l.

(** ** The remote endpoint

    The request parameters built by [_get_links] and [_get_backlinks]
    ([action=query], [format=json] in both). *)
Inductive params : Type :=
| LinksParams (titles : string) (pllimit : nat)         (* prop=links     *)
| BacklinksParams (bltitle : string) (bllimit : nat).   (* list=backlinks *)

(** The decoded response, typed after the MediaWiki schema.  A field the
    code reads with [d[key]] or [d.get(key)] is an [option]: [None] when the
    object lacks the key.  The [pages] object is kept as its items in
    insertion order. *)
Record LinkEntry : Type := { le_title : option string }.
Record PageEntry : Type := { pe_links : option (list LinkEntry) }.
Record BacklinkEntry : Type := { be_title : option string }.
Record Query : Type :=
  { q_pages : option (list (string * PageEntry));
    q_backlinks : option (list BacklinkEntry) }.
Record Response : Type := { r_query : option Query }.

(** ** models.py *)

(** A row of table [wikipage].  The serial [id] and the unused
    [level_two_children] relation are left out. *)
Record WikiPage : Type :=
  { title : string;
    links : list string;
    backlinks : list (option string) }.

(** [title = Column(String(150))]: the column takes 150 characters. *)
Definition title_length : nat := 150.

(** A byte of the form 10xxxxxx continues a character of a UTF-8 string. *)
Definition continuation_byte (b : ascii) : bool :=
  match b with
  | Ascii _ _ _ _ _ _ b6 b7 => b7 && negb b6
  end.

(** The number of characters of a title. *)
Fixpoint char_length (t : string) : nat :=
  match t with
  | EmptyString => 0
  | String b t' => (if continuation_byte b then 0 else 1) + char_length t'
  end.

(** [WikiPage.add_child].  The collection [level_two_children] of a page is
    kept as the list of the identities of its children: the class defines no
    [__eq__], so [page not in self.level_two_children] compares objects by
    identity. *)
Definition add_child (level_two_children : list nat) (page : nat) : list nat :=
  if negb (existsb (Nat.eqb page) level_two_children)
  then level_two_children ++ [page]
  else level_two_children.

(** The committed rows, oldest first. *)
Definition Session : Type := list WikiPage.

(** [session.query(WikiPage).filter_by(title=link).first()] *)
Definition query_first (link : string) (session : Session) : option WikiPage :=
  find (fun page => String.eqb (title page) link) session.

(** ** State and exceptions *)

Definition M (A : Type) : Type := Session -> result A * Session.

Definition ret {A} (a : A) : M A := fun session => (Ok a, session).
Definition raise {A} (e : exn) : M A := fun session => (Raise e, session).
Definition bind {A B} (m : M A) (k : A -> M B) : M B :=
  fun session =>
    match m session with
    | (Ok a, session') => k a session'
    | (Raise e, session') => (Raise e, session')
    end.

Declare Scope m_scope.
Delimit Scope m_scope with M.
Notation "x <- m ;; k" := (bind m (fun x => k))
  (at level 61, m at next level, right associativity) : m_scope.

(** What [find_path] hands back: [str(e)] or a list of titles. *)
Inductive retval : Type :=
| PyStr (s : string)
| PyList (l : list string).

(** Modelled from the spec: the decorator [time_elapsed] comes from a module
    [decorators] that is not part of the sources; the spec describes it as a
    timing wrapper around the top-level call, so it hands the call through
    unchanged. *)
Definition time_elapsed {A} (func : A) : A := func.

(** ** A remote corpus

    Well-formed responses, and a small stand-in for the endpoint to run the
    racer against. *)

Definition link_entries (titles : list string) : list LinkEntry :=
  map (fun t => {| le_title := Some t |}) titles.

(** One page entry that carries [titles] as its links. *)
Definition links_response (pageid : string) (titles : list string) : Response :=
  {| r_query := Some
       {| q_pages := Some [(pageid, {| pe_links := Some (link_entries titles) |})];
          q_backlinks := None |} |}.

(** One page entry without a [links] key: how a missing page is reported. *)
Definition missing_response : Response :=
  {| r_query := Some
       {| q_pages := Some [("-1", {| pe_links := None |})];
          q_backlinks := None |} |}.

(** A response whose first page entry has a link and whose second page
    entry comes without its [links] key. *)
Definition garbled_response : Response :=
  {| r_query := Some
       {| q_pages := Some [("1", {| pe_links := Some (link_entries ["Italy"]) |});
                           ("2", {| pe_links := None |})];
          q_backlinks := None |} |}.

Definition backlinks_response (titles : list string) : Response :=
  {| r_query := Some
       {| q_pages := None;
          q_backlinks := Some (map (fun t => {| be_title := Some t |}) titles) |} |}.

Fixpoint assoc (t : string) (corpus : list (string * list string))
  : option (list string) :=
  match corpus with
  | [] => None
  | (t', outbound) :: corpus' =>
      if String.eqb t t' then Some outbound else assoc t corpus'
  end.

(** A stand-in for the remote link source, after section 6 of the
    specification: a read-only service that returns, for a title, its
    outbound links and the pages that link to it, each capped by the
    result-count parameter.  [corpus] lists every page with its outbound
    links; a title it does not list is reported as a missing page. *)
Definition remote (corpus : list (string * list string)) (p : params)
  : option Response :=
  match p with
  | LinksParams t pllimit =>
      Some match assoc t corpus with
           | Some outbound => links_response "1" (firstn pllimit outbound)
           | None => missing_response
           end
  | BacklinksParams t bllimit =>
      Some (backlinks_response
              (firstn bllimit
                 (map fst (filter (fun page => py_in t (snd page)) corpus))))
  end.

(** The same service with its backlink queries failing. *)
Definition remote_backlinks_down (corpus : list (string * list string))
    (p : params) : option Response :=
  match p with
  | LinksParams _ _ => remote corpus p
  | BacklinksParams _ _ => None
  end.

Definition corpus : list (string * list string) :=
  [ ("Friendship", ["GIBIBIBI"; "Trust"; "X"; "Y"]);
    ("Rome", ["Italy"]);
    ("Trust", ["Friendship"]);
    ("X", ["Rome"; "Florence"]);
    ("Y", ["Rome"]);
    ("", ["Rome"]);
    ("Florence", ["GIBIBIBI"; ""; "X"]);
    ("War:Resources", ["Rome"]) ].

Definition wiki : params -> option Response := remote corpus.

(** A store that already holds the page [Trust]. *)
Definition cached : Session :=
  [ {| title := "Trust"; links := ["Friendship"]; backlinks := [Some "Friendship"] |} ].

(** A store with two rows for [X]; the first, out of date, lists
    [Florence] alone. *)
Definition stale : Session :=
  [ {| title := "X"; links := ["Florence"]; backlinks := [] |};
    {| title := "X"; links := ["Rome"; "Florence"]; backlinks := [] |} ].

(** A title of 151 characters, and a corpus with a page of that title. *)
Definition long_title : string :=
  string_of_list_ascii (repeat "a"%char 151).

Definition long_corpus : list (string * list string) :=
  [ ("Trust", ["GIBIBIBI"; long_title]);
    (long_title, ["X"]);
    ("X", ["Rome"]);
    ("Rome", ["Italy"]) ].

(** A page with 201 outbound links, the first of them with a slash in its
    title. *)
Definition ukraine_links : list string :=
  "AC/DC" :: repeat "Kyiv" LINKS_PER_PAGE.

Definition big_wiki : params -> option Response :=
  remote [("Ukraine", ukraine_links)].

(** ** class WikiRacer *)

Section WikiRacer.

(** [session.get(url=API_URL, params=params).json()]; [None] when the
    request or the JSON decoding raises. *)
Variable requests_get : params -> option Response.

Definition fetch (p : params) : result Response :=
  match requests_get p with
  | Some response => Ok response
  | None => Raise RequestException
  end.

(** The filter of line 80: [entry['title']] is read in the condition, so an
    entry without a title raises there. *)
Definition no_red_flag (t : string) : bool :=
  forallb (fun char => negb (red_flag char)) (list_ascii_of_string t).

Fixpoint link_titles (links : list LinkEntry) : result (list string) :=
  match links with
  | [] => Ok []
  | entry :: links' =>
      match getitem "title" (le_title entry) with
      | Raise e => Raise e
      | Ok t =>
          match link_titles links' with
          | Raise e => Raise e
          | Ok rest => Ok (if no_red_flag t then t :: rest else rest)
          end
      end
  end.

Definition _get_links (page : string) : result (list string) :=
  (response <- fetch (LinksParams page LINKS_PER_PAGE) ;;
   query <- getitem "query" (r_query response) ;;
   links <- getitem "pages" (q_pages query) ;;
   let results := map snd links in
   match comprehension (fun entry => getitem "links" (pe_links entry)) results with
   | Raise (KeyError _) => Ok []                       (* except KeyError *)
   | Raise e => Raise e
   | Ok [] => Raise IndexError                         (* [...][0]        *)
   | Ok (links :: _) => link_titles links
   end)%result.

Definition valid_title (t : string) : bool :=
  negb (forallb red_flag (list_ascii_of_string t)).

Definition _validate_page (t : string) : result (bool * list string) :=
  (let valid_title := valid_title t in
   page_links <- _get_links t ;;
   if negb valid_title || (length page_links =? 0)%nat
   then Raise (InvalidPageException t)
   else Ok (true, page_links))%result.

Definition _get_backlinks (page : string) : result (list (option string)) :=
  (response <- fetch (BacklinksParams page LINKS_PER_PAGE) ;;
   query <- getitem "query" (r_query response) ;;
   entries <- getitem "backlinks" (q_backlinks query) ;;
   Ok (map be_title entries))%result.

(** [session.commit()] sends the row to the database, which refuses a
    title longer than its column: the commit raises and nothing is stored.
    (PostgreSQL cuts the value instead when all that exceeds the column is
    spaces; the title of a page does not end in a space.) *)
Definition _create_link_obj (t : string) (page_links : list string) : M WikiPage :=
  fun session =>
    match _get_backlinks t with
    | Raise e => (Raise e, session)
    | Ok bl =>
        let page_obj := {| title := t; links := page_links; backlinks := bl |} in
        if (char_length t <=? title_length)%nat
        then (Ok page_obj, session ++ [page_obj])      (* add; commit *)
        else (Raise DataError, session)
    end.

(** Returns the flag together with the (possibly mutated) [path]. *)
Definition _page_leads_to_term (page_title : string) (page_links : list string)
    (term : string) (path : list string) : bool * list string :=
  if py_in term page_links
  then (true, list_insert 1 page_title path)
  else (false, path).

(** The [for link in start_page_links] loop with its two loop-carried
    variables. *)
Fixpoint for_link (finish : string) (start_page_links : list string)
    (path_found : bool) (path : list string) : M (bool * list string) :=
  match start_page_links with
  | [] => ret (path_found, path)
  | link :: rest =>
      fun session =>
        match query_first link session with
        | Some page_db_lookup =>
            let '(path_found, path) :=
              _page_leads_to_term link (links page_db_lookup) finish path in
            if path_found then (Ok (path_found, path), session)      (* break *)
            else for_link finish rest path_found path session
        | None =>
            match _validate_page link with
            | Raise (InvalidPageException _) =>
                for_link finish rest path_found path session      (* continue *)
            | Raise e => (Raise e, session)
            | Ok (_, page_links) =>
                (page_obj <- _create_link_obj link page_links ;;
                 let '(path_found, path) :=
                   _page_leads_to_term link page_links finish path in
                 if path_found then ret (path_found, path)           (* break *)
                 else for_link finish rest path_found path)%M session
            end
        end
  end.

Definition find_path : string -> string -> M retval :=
  time_elapsed (fun start finish =>
    match (r <- _validate_page start ;;
           final_page <- _validate_page finish ;;
           Ok (r, final_page))%result with
    | Raise (InvalidPageException t) => ret (PyStr (message t))
    | Raise e => raise e
    | Ok ((_, start_page_links), _) =>
        (r <- for_link finish start_page_links false [start; finish] ;;
         let '(path_found, path) := r in
         ret (PyList (if path_found then path else [])))%M
    end).

(** ** Vocabulary of the specification *)

Definition is_ok {A} (r : result A) : bool :=
  match r with
  | Ok _ => true
  | Raise _ => false
  end.

(** The first row of the store with the title [link]: the row a lookup of
    [link] yields. *)
Definition first_row (session : Session) (link : string) (page : WikiPage)
  : Prop :=
  exists before after,
    session = before ++ page :: after /\
    title page = link /\
    Forall (fun row => title row <> link) before.

(** No row of the store has the title [link]. *)
Definition uncached (session : Session) (link : string) : Prop :=
  Forall (fun row => title row <> link) session.

(** A title is all separators: the negation of [valid_title]. *)
Definition all_separators (t : string) : bool :=
  forallb red_flag (list_ascii_of_string t).

(** [expansion session finish link found]: expanding the candidate [link]
    on [session] raises nothing, and [found] tells whether [finish] is in
    its link set.  The link set of a cached candidate is the links of its
    first row.  A candidate that is not cached and whose fetched links fail
    validation is skipped and has none.  One that is not cached and passes
    validation has the fetched links as its link set; its row is committed
    first, for which the backlink query has to be answered and the title has
    to fit the column. *)
Inductive expansion (session : Session) (finish link : string)
  : bool -> Prop :=
| expansion_hit page found :
    first_row session link page ->
    (found = true <-> In finish (links page)) ->
    expansion session finish link found
| expansion_skip page_links :
    uncached session link ->
    _get_links link = Ok page_links ->
    all_separators link = true \/ page_links = [] ->
    expansion session finish link false
| expansion_fetch page_links bl found :
    uncached session link ->
    _get_links link = Ok page_links ->
    all_separators link = false ->
    page_links <> [] ->
    _get_backlinks link = Ok bl ->
    char_length link <= title_length ->
    (found = true <-> In finish page_links) ->
    expansion session finish link found.

(** Validation of [t] fails: the fetched link list is there, and the title
    is all separators or the list is empty. *)
Definition fails_validation (t : string) : bool :=
  match _get_links t with
  | Ok page_links => all_separators t || (length page_links =? 0)%nat
  | Raise _ => false
  end.

(** What [_get_links] keeps of a page's outbound links: of the first
    [LINKS_PER_PAGE], those without a separator. *)
Definition kept_titles (outbound : list string) : list string :=
  filter no_red_flag (firstn LINKS_PER_PAGE outbound).

(** A row that mirrors a successful validation of its title. *)
Definition validated (page : WikiPage) : Prop :=
  _validate_page (title page) = Ok (true, links page).

(** A row of a valid page: some links, and a title that is not made of
    separators only. *)
Definition valid_record (page : WikiPage) : Prop :=
  links page <> [] /\ all_separators (title page) = false.

(** Expanding [link] raises nothing and does not find [finish]. *)
Definition quiet (session : Session) (finish link : string) : bool :=
  match query_first link session with
  | Some page => negb (py_in finish (links page))
  | None =>
      match _validate_page link with
      | Ok (_, page_links) =>
          negb (py_in finish page_links) && is_ok (_get_backlinks link)
          && (char_length link <=? title_length)%nat
      | Raise (InvalidPageException _) => true
      | Raise _ => false
      end
  end.

(** Expanding [link] raises nothing and finds [finish]. *)
Definition finds (session : Session) (finish link : string) : bool :=
  match query_first link session with
  | Some page => py_in finish (links page)
  | None =>
      match _validate_page link with
      | Ok (_, page_links) =>
          py_in finish page_links && is_ok (_get_backlinks link)
          && (char_length link <=? title_length)%nat
      | Raise _ => false
      end
  end.

(** ** The validator *)

Lemma validate_unfold t page_links :
  _get_links t = Ok page_links ->
  _validate_page t =
    if all_separators t || (length page_links =? 0)%nat
    then Raise (InvalidPageException t)
    else Ok (true, page_links).
Proof.
  intros Hl. unfold _validate_page, valid_title, all_separators.
  rewrite Hl. simpl. rewrite negb_involutive. reflexivity.
Qed.

Lemma validate_raises t e :
  _validate_page t = Raise e ->
  e = InvalidPageException t \/ _get_links t = Raise e.
Proof.
  unfold _validate_page. destruct (_get_links t) as [ls|e']; simpl.
  - destruct (_ || _); [|discriminate]. intros [= <-]. now left.
  - intros [= <-]. now right.
Qed.

Lemma validate_ok t b page_links :
  _validate_page t = Ok (b, page_links) ->
  b = true /\ _get_links t = Ok page_links /\
  all_separators t = false /\ page_links <> [].
Proof.
  unfold _validate_page, valid_title, all_separators.
  destruct (_get_links t) as [ls|e']; simpl; [|discriminate].
  rewrite negb_involutive.
  destruct (forallb red_flag _); simpl; [discriminate|].
  destruct ls as [|l ls]; simpl; [discriminate|].
  intros [= <- <-]. repeat split. discriminate.
Qed.

Lemma validated_valid page : validated page -> valid_record page.
Proof.
  unfold validated, valid_record. intros H.
  apply validate_ok in H. tauto.
Qed.

(** ** The store *)

Lemma query_first_app link (session ext : Session) :
  query_first link (session ++ ext) =
    match query_first link session with
    | Some page => Some page
    | None => query_first link ext
    end.
Proof.
  unfold query_first. induction session as [|p session IH]; simpl; auto.
  destruct (String.eqb (title p) link); auto.
Qed.

Lemma query_first_some link session page :
  query_first link session = Some page -> In page session /\ title page = link.
Proof.
  unfold query_first. intros H. apply find_some in H as [Hin Heq].
  split; [assumption | now apply String.eqb_eq].
Qed.

Lemma query_first_validated link ext page :
  Forall validated ext ->
  query_first link ext = Some page ->
  _validate_page link = Ok (true, links page).
Proof.
  intros Hall Hq. apply query_first_some in Hq as [Hin <-].
  rewrite Forall_forall in Hall. now apply Hall.
Qed.

Lemma query_first_uncached link session :
  uncached session link -> query_first link session = None.
Proof.
  unfold uncached, query_first. induction 1 as [|row session Hrow _ IH]; simpl.
  - reflexivity.
  - apply String.eqb_neq in Hrow. now rewrite Hrow.
Qed.

Lemma query_first_first_row link session page :
  first_row session link page -> query_first link session = Some page.
Proof.
  intros (before & after & -> & Ht & Hb).
  rewrite query_first_app, (query_first_uncached link before Hb).
  unfold query_first. simpl. now rewrite Ht, String.eqb_refl.
Qed.

Lemma py_in_spec term page_links :
  py_in term page_links = true <-> In term page_links.
Proof.
  unfold py_in. rewrite existsb_exists. split.
  - intros (x & Hin & Heq). apply String.eqb_eq in Heq. now subst.
  - intros Hin. exists term. split; [assumption | apply String.eqb_refl].
Qed.

Lemma quiet_mono session ext finish link :
  Forall validated ext ->
  quiet session finish link = true ->
  quiet (session ++ ext) finish link = true.
Proof.
  intros Hall. unfold quiet. rewrite query_first_app.
  destruct (query_first link session) as [page|]; auto.
  destruct (query_first link ext) as [page|] eqn:Hq; auto.
  rewrite (query_first_validated _ _ _ Hall Hq).
  intros H. apply andb_prop in H as [H _]. now apply andb_prop in H.
Qed.

Lemma finds_mono session ext finish link :
  Forall validated ext ->
  finds session finish link = true ->
  finds (session ++ ext) finish link = true.
Proof.
  intros Hall. unfold finds. rewrite query_first_app.
  destruct (query_first link session) as [page|]; auto.
  destruct (query_first link ext) as [page|] eqn:Hq; auto.
  rewrite (query_first_validated _ _ _ Hall Hq).
  intros H. apply andb_prop in H as [H _]. now apply andb_prop in H.
Qed.

(** ** One candidate *)

Lemma create_link_obj_inv t page_links session r session' :
  _create_link_obj t page_links session = (r, session') ->
  (exists e, r = Raise e /\ session' = session) \/
  (exists bl, _get_backlinks t = Ok bl /\
     char_length t <= title_length /\
     r = Ok {| title := t; links := page_links; backlinks := bl |} /\
     session' = session ++
       [{| title := t; links := page_links; backlinks := bl |}]).
Proof.
  unfold _create_link_obj. destruct (_get_backlinks t) as [bl|e].
  - destruct (char_length t <=? title_length)%nat eqn:Hlen.
    + intros [= <- <-]. right. exists bl. apply Nat.leb_le in Hlen. auto.
    + intros [= <- <-]. left. now exists DataError.
  - intros [= <- <-]. left. now exists e.
Qed.

(** Every row the loop commits mirrors a successful validation of a
    candidate that was not cached when it was reached. *)
Lemma for_link_extends finish start_page_links :
  forall path_found path session r session',
    for_link finish start_page_links path_found path session = (r, session') ->
    exists new,
      session' = (session ++ new) /\
      Forall validated new /\
      Forall (fun page => In (title page) start_page_links) new.
Proof.
  induction start_page_links as [|link rest IH];
    intros path_found path session r session'; simpl.
  - intros [= <- <-]. exists []. rewrite app_nil_r. auto.
  - assert (Hrest : forall pf p s,
               for_link finish rest pf p s = (r, session') ->
               exists new, session' = (s ++ new) /\ Forall validated new /\
                 Forall (fun page => In (title page) (link :: rest)) new).
    { intros pf p s H. apply IH in H as (new & -> & Hv & Ht).
      exists new. repeat split; auto.
      eapply Forall_impl; [|exact Ht]. simpl; auto. }
    assert (Hstop : forall (x : result (bool * list string)),
               (x, session) = (r, session') ->
               exists new, session' = (session ++ new) /\
                 Forall validated new /\
                 Forall (fun page => In (title page) (link :: rest)) new).
    { intros x [= <- <-]. exists []. rewrite app_nil_r. auto. }
    destruct (query_first link session) as [page|] eqn:Hq.
    + unfold _page_leads_to_term.
      destruct (py_in finish (links page)); [apply Hstop | apply Hrest].
    + destruct (_validate_page link) as [[b page_links]|e] eqn:Hv.
      * unfold bind.
        destruct (_create_link_obj link page_links session) as [o s1] eqn:Hc.
        apply create_link_obj_inv in Hc
          as [(e & -> & ->) | (bl & Hb & _ & -> & ->)]; [apply Hstop|].
        apply validate_ok in Hv as Hv'. destruct Hv' as (-> & _).
        set (page := {| title := link; links := page_links; backlinks := bl |}).
        assert (Hone : forall new,
                   Forall validated new ->
                   Forall (fun p => In (title p) (link :: rest)) new ->
                   Forall validated (page :: new) /\
                   Forall (fun p => In (title p) (link :: rest)) (page :: new)).
        { intros new H1 H2. split; constructor; simpl; auto. }
        unfold _page_leads_to_term. destruct (py_in finish page_links).
        -- unfold ret. intros [= <- <-]. exists [page].
           split; [reflexivity|]. now apply Hone.
        -- intros H. apply Hrest in H as (new & -> & H1 & H2).
           exists (page :: new). rewrite <- app_assoc. simpl.
           split; [reflexivity|]. now apply Hone.
      * destruct e; try apply Hstop. apply Hrest.
Qed.

(** Candidates whose expansion is quiet leave the loop variables as they
    were; at most their own rows are committed.  The rows do not depend on
    what follows in the list. *)
Lemma for_link_quiet finish pre :
  forall session,
    Forall (fun link => quiet session finish link = true) pre ->
    exists new,
      (forall rest path,
          for_link finish (pre ++ rest) false path session =
            for_link finish rest false path (session ++ new)) /\
      Forall validated new /\
      Forall (fun page => In (title page) pre) new.
Proof.
  induction pre as [|link pre IH]; intros session Hq.
  - exists []. repeat split; auto. intros rest path. now rewrite app_nil_r.
  - inversion Hq as [|? ? Hlink Hpre]; subst.
    unfold quiet in Hlink.
    destruct (query_first link session) as [page|] eqn:Hlook.
    + destruct (IH session Hpre) as (new & E & Hv & Ht).
      exists new. repeat split; auto.
      * intros rest path. simpl. rewrite Hlook. unfold _page_leads_to_term.
        destruct (py_in finish (links page)); [discriminate | apply E].
      * eapply Forall_impl; [|exact Ht]. simpl; auto.
    + destruct (_validate_page link) as [[b page_links]|e] eqn:Hv.
      * apply andb_prop in Hlink as [Hlink Hlen].
        apply andb_prop in Hlink as [Hno Hb].
        apply negb_true_iff in Hno.
        destruct (_get_backlinks link) as [bl|] eqn:Hbl; [|discriminate].
        apply validate_ok in Hv as Hv'. destruct Hv' as (-> & _).
        set (page := {| title := link; links := page_links; backlinks := bl |}).
        assert (Hpage : Forall validated [page]) by (repeat constructor; exact Hv).
        destruct (IH (session ++ [page])) as (new & E & Hnew & Ht).
        { eapply Forall_impl; [|exact Hpre].
          intros l Hl. now apply quiet_mono. }
        exists (page :: new). repeat split.
        -- intros rest path. simpl. rewrite Hlook, Hv.
           unfold bind, _create_link_obj, _page_leads_to_term.
           rewrite Hbl, Hlen, Hno. fold page. rewrite E, <- app_assoc.
           reflexivity.
        -- constructor; [exact Hv | exact Hnew].
        -- constructor; simpl; auto.
           eapply Forall_impl; [|exact Ht]. simpl; auto.
      * destruct e; try discriminate.
        destruct (IH session Hpre) as (new & E & Hnew & Ht).
        exists new. repeat split; auto.
        -- intros rest path. simpl. rewrite Hlook, Hv. apply E.
        -- eapply Forall_impl; [|exact Ht]. simpl; auto.
Qed.

(** The candidate that finds [finish] is spliced into the path at index 1
    and ends the loop, whatever follows it. *)
Lemma for_link_finds finish link session :
  finds session finish link = true ->
  exists new,
    (forall rest path_found path,
        for_link finish (link :: rest) path_found path session =
          (Ok (true, list_insert 1 link path), session ++ new)) /\
    Forall validated new /\
    Forall (fun page => title page = link) new.
Proof.
  unfold finds.
  destruct (query_first link session) as [page|] eqn:Hlook.
  - intros Hin. exists []. repeat split; auto.
    intros rest path_found path. simpl. rewrite Hlook.
    unfold _page_leads_to_term. now rewrite Hin, app_nil_r.
  - destruct (_validate_page link) as [[b page_links]|e] eqn:Hv; [|discriminate].
    intros H. apply andb_prop in H as [H Hlen].
    apply andb_prop in H as [Hin Hb].
    destruct (_get_backlinks link) as [bl|] eqn:Hbl; [|discriminate].
    apply validate_ok in Hv as Hv'. destruct Hv' as (-> & _).
    exists [{| title := link; links := page_links; backlinks := bl |}].
    repeat split; repeat constructor; [|exact Hv].
    intros rest path_found path. simpl. rewrite Hlook, Hv.
    unfold bind, _create_link_obj, _page_leads_to_term, ret.
    now rewrite Hbl, Hlen, Hin.
Qed.

Lemma for_link_first_match finish pre link session :
  Forall (fun l => quiet session finish l = true) pre ->
  finds session finish link = true ->
  exists new,
    (forall post path,
        for_link finish (pre ++ link :: post) false path session =
          (Ok (true, list_insert 1 link path), session ++ new)) /\
    Forall validated new /\
    Forall (fun page => In (title page) (pre ++ [link])) new.
Proof.
  intros Hpre Hlink.
  destruct (for_link_quiet finish pre session Hpre) as (new1 & E1 & Hv1 & Ht1).
  destruct (for_link_finds finish link (session ++ new1))
    as (new2 & E2 & Hv2 & Ht2).
  { now apply finds_mono. }
  exists (new1 ++ new2). repeat split.
  - intros post path. now rewrite E1, E2, app_assoc.
  - now apply Forall_app.
  - apply Forall_app. split.
    + eapply Forall_impl; [|exact Ht1]. intros p Hp. apply in_or_app. now left.
    + eapply Forall_impl; [|exact Ht2]. intros p ->. apply in_or_app.
      right. now left.
Qed.


(** From the words of the claims to the two predicates above. *)
Lemma expansion_quiet session finish link :
  expansion session finish link false ->
  quiet session finish link = true.
Proof.
  unfold quiet.
  inversion 1 as [page found Hrow Hfound | ls Hun Hl Hbad | ls bl found Hun Hl Hs Hne Hb Hlen Hfound];
    subst.
  - rewrite (query_first_first_row _ _ _ Hrow).
    destruct (py_in finish (links page)) eqn:E; [|reflexivity].
    apply py_in_spec, Hfound in E. discriminate.
  - rewrite (query_first_uncached _ _ Hun), (validate_unfold link ls Hl).
    destruct Hbad as [-> | ->]; [reflexivity|].
    simpl. now rewrite orb_true_r.
  - assert (E : py_in finish ls = false).
    { destruct (py_in finish ls) eqn:E; [|reflexivity].
      apply py_in_spec, Hfound in E. discriminate. }
    assert (Hz : (length ls =? 0)%nat = false)
      by (destruct ls; [contradiction | reflexivity]).
    apply Nat.leb_le in Hlen.
    rewrite (query_first_uncached _ _ Hun), (validate_unfold link ls Hl), Hs, Hz.
    cbn [orb]. now rewrite E, Hb, Hlen.
Qed.

Lemma expansion_finds session finish link :
  expansion session finish link true ->
  finds session finish link = true.
Proof.
  unfold finds.
  inversion 1 as [page found Hrow Hfound | | ls bl found Hun Hl Hs Hne Hb Hlen Hfound];
    subst.
  - rewrite (query_first_first_row _ _ _ Hrow).
    apply py_in_spec, Hfound. reflexivity.
  - assert (E : py_in finish ls = true)
      by (apply py_in_spec, Hfound; reflexivity).
    assert (Hz : (length ls =? 0)%nat = false)
      by (destruct ls; [contradiction | reflexivity]).
    apply Nat.leb_le in Hlen.
    rewrite (query_first_uncached _ _ Hun), (validate_unfold link ls Hl), Hs, Hz.
    cbn [orb]. now rewrite E, Hb, Hlen.
Qed.

(** ** The search *)

Lemma get_backlinks_raises page e :
  _get_backlinks page = Raise e ->
  forall t, e <> InvalidPageException t.
Proof.
  unfold _get_backlinks, fetch.
  destruct (requests_get _) as [response|]; simpl; [|intros [= <-]; discriminate].
  destruct (r_query response) as [query|]; simpl; [|intros [= <-]; discriminate].
  destruct (q_backlinks query); simpl; [discriminate|intros [= <-]; discriminate].
Qed.

Lemma create_link_obj_raises t page_links session e session' :
  _create_link_obj t page_links session = (Raise e, session') ->
  forall t', e <> InvalidPageException t'.
Proof.
  unfold _create_link_obj. destruct (_get_backlinks t) as [bl|e1] eqn:Hb.
  - destruct (char_length t <=? title_length)%nat; [discriminate|].
    intros [= <- <-]. discriminate.
  - intros [= <- <-]. now apply (get_backlinks_raises t).
Qed.

(** The loop lets no [InvalidPageException] out. *)
Lemma for_link_raises finish start_page_links :
  forall path_found path session e session',
    for_link finish start_page_links path_found path session = (Raise e, session') ->
    forall t, e <> InvalidPageException t.
Proof.
  induction start_page_links as [|link rest IH];
    intros path_found path session e session'; simpl.
  - discriminate.
  - destruct (query_first link session) as [page|].
    + unfold _page_leads_to_term.
      destruct (py_in finish (links page)); [discriminate | apply IH].
    + destruct (_validate_page link) as [[b page_links]|e0].
      * unfold bind.
        destruct (_create_link_obj link page_links session)
          as [[page_obj|e1] s1] eqn:Hc.
        -- unfold _page_leads_to_term.
           destruct (py_in finish page_links); [discriminate | apply IH].
        -- intros [= <- <-]. now apply (create_link_obj_raises _ _ _ _ _ Hc).
      * destruct e0; try (intros [= <- <-]; discriminate). apply IH.
Qed.

Lemma find_path_raises start finish session e session' :
  find_path start finish session = (Raise e, session') ->
  forall t, e <> InvalidPageException t.
Proof.
  unfold find_path, time_elapsed.
  destruct (_validate_page start) as [[b1 sl]|e1]; simpl.
  - destruct (_validate_page finish) as [fp|e2]; simpl.
    + unfold bind.
      destruct (for_link finish sl false [start; finish] session)
        as [[[pf path]|e0] s'] eqn:E; [discriminate|].
      intros [= <- <-]. now apply (for_link_raises _ _ _ _ _ _ _ E).
    + unfold ret, raise. destruct e2; intros [= <- <-]; discriminate.
  - unfold ret, raise. destruct e1; intros [= <- <-]; discriminate.
Qed.

Lemma find_path_valid start finish b start_page_links final_page session :
  _validate_page start = Ok (b, start_page_links) ->
  _validate_page finish = Ok final_page ->
  find_path start finish session =
    match for_link finish start_page_links false [start; finish] session with
    | (Ok (path_found, path), session') =>
        (Ok (PyList (if path_found then path else [])), session')
    | (Raise e, session') => (Raise e, session')
    end.
Proof.
  intros Hs Hf. unfold find_path, time_elapsed. rewrite Hs, Hf. simpl.
  unfold bind.
  destruct (for_link finish start_page_links false [start; finish] session)
    as [[[pf path]|e] s']; reflexivity.
Qed.

Lemma find_path_invalid start finish t session :
  (r <- _validate_page start ;;
   final_page <- _validate_page finish ;;
   Ok (r, final_page))%result = Raise (InvalidPageException t) ->
  find_path start finish session = (Ok (PyStr (message t)), session).
Proof.
  intros H. unfold find_path, time_elapsed. rewrite H. reflexivity.
Qed.

(** ** Validation *)

(** C4: given the link list fetched for a title, [_validate_page] raises
    [InvalidPageException] exactly when every character of the title is a
    separator or the list is empty, and returns the fetched links otherwise.
    So a title made of separators only is rejected, and a title that has a
    character other than a separator is rejected only for an empty list. *)
Theorem validate_page_spec t page_links :
  _get_links t = Ok page_links ->
  (_validate_page t = Raise (InvalidPageException t) <->
     all_separators t = true \/ page_links = []) /\
  (~ (all_separators t = true \/ page_links = []) ->
     _validate_page t = Ok (true, page_links)) /\
  ((forall char, In char (list_ascii_of_string t) -> In char TITLE_RED_FLAGS) ->
     _validate_page t = Raise (InvalidPageException t)) /\
  ((exists char, In char (list_ascii_of_string t) /\ ~ In char TITLE_RED_FLAGS) ->
     all_separators t = false /\
     (page_links <> [] -> _validate_page t = Ok (true, page_links))).
Proof.
  intros Hl. rewrite (validate_unfold t page_links Hl).
  assert (Hflag : forall char, red_flag char = true <-> In char TITLE_RED_FLAGS).
  { intros char. unfold red_flag. rewrite existsb_exists. split.
    - intros (x & Hin & Heq). apply Ascii.eqb_eq in Heq. now subst.
    - intros Hin. exists char. split; [assumption | apply Ascii.eqb_refl]. }
  assert (Hlen : (length page_links =? 0)%nat = true <-> page_links = []).
  { rewrite Nat.eqb_eq. split; [apply length_zero_iff_nil | now intros ->]. }
  repeat split.
  - destruct (all_separators t); [now left|]. simpl.
    destruct (length page_links =? 0)%nat eqn:E; [|discriminate].
    intros _. right. now apply Hlen.
  - intros [-> | Hnil]; [reflexivity|].
    apply Hlen in Hnil. rewrite Hnil, orb_true_r. reflexivity.
  - intros Hno. destruct (all_separators t); [exfalso; auto|]. simpl.
    destruct (length page_links =? 0)%nat eqn:E; [|reflexivity].
    exfalso. apply Hno. right. now apply Hlen.
  - intros Hall. replace (all_separators t) with true; [reflexivity|].
    symmetry. unfold all_separators. apply forallb_forall.
    intros char Hin. now apply Hflag, Hall.
  - destruct H as (char & Hin & Hno).
    destruct (all_separators t) eqn:E; [|reflexivity].
    unfold all_separators in E. rewrite forallb_forall in E.
    exfalso. now apply Hno, Hflag, E.
  - destruct H as (char & Hin & Hno). intros Hne.
    replace (all_separators t) with false.
    + simpl. destruct page_links; [contradiction | reflexivity].
    + symmetry. destruct (all_separators t) eqn:E; [|reflexivity].
      unfold all_separators in E. rewrite forallb_forall in E.
      exfalso. now apply Hno, Hflag, E.
Qed.

(** C10: the empty title never validates: [all] over no character holds,
    so whatever link list the provider returns for it, [_validate_page]
    raises [InvalidPageException]. *)
Theorem validate_empty_title page_links :
  _get_links "" = Ok page_links ->
  all_separators "" = true /\
  valid_title "" = false /\
  _validate_page "" = Raise (InvalidPageException "").
Proof.
  intros Hl. rewrite (validate_unfold "" page_links Hl). auto.
Qed.

Lemma fails_validation_raises t :
  fails_validation t = true ->
  _validate_page t = Raise (InvalidPageException t).
Proof.
  unfold fails_validation.
  destruct (_get_links t) as [page_links|e] eqn:Hl; [|discriminate].
  intros H. now rewrite (validate_unfold t page_links Hl), H.
Qed.

Lemma passes_validation t :
  is_ok (_get_links t) = true ->
  fails_validation t = false ->
  exists page_links, _validate_page t = Ok (true, page_links).
Proof.
  unfold fails_validation.
  destruct (_get_links t) as [page_links|e] eqn:Hl; [|discriminate].
  intros _ H. exists page_links.
  now rewrite (validate_unfold t page_links Hl), H.
Qed.

(** ** find_path *)

(** C2: when validation of [start] fails, or [start] is fetched and
    validation of [finish] fails, [find_path] returns the message string of
    the failing title and leaves the store alone; a string is neither a
    found path nor the empty list. *)
Theorem find_path_invalid_outcome start finish session :
  fails_validation start = true \/
  (is_ok (_get_links start) = true /\ fails_validation finish = true) ->
  exists t,
    (t = start \/ t = finish) /\
    find_path start finish session = (Ok (PyStr (message t)), session) /\
    (forall path, PyStr (message t) <> PyList path) /\
    PyStr (message t) <> PyList [].
Proof.
  intros H.
  assert (Hinv : exists t, (t = start \/ t = finish) /\
             (r <- _validate_page start ;;
              final_page <- _validate_page finish ;;
              Ok (r, final_page))%result = Raise (InvalidPageException t)).
  { destruct (fails_validation start) eqn:Hs.
    - exists start. split; [now left|].
      now rewrite (fails_validation_raises start Hs).
    - destruct H as [H | [Hok Hf]]; [discriminate|].
      destruct (passes_validation start Hok Hs) as (ls & ->).
      exists finish. split; [now right|]. simpl.
      now rewrite (fails_validation_raises finish Hf). }
  destruct Hinv as (t & Ht & Hraise). exists t.
  split; [exact Ht|]. split; [now apply find_path_invalid|].
  split; [intros path|]; discriminate.
Qed.

(** C1, as the code has it: with [start] and [finish] valid, let [link] be
    the first of the start links, in the order the provider returned them,
    whose link set holds [finish], the expansion of every link up to it
    raising nothing: for a link that is not cached and passes validation the
    backlink query is answered and the title fits its column.  Then
    [find_path] returns [[start; link; finish]].  The loop ends at [link]:
    the rows committed are all for candidates up to [link], and the outcome
    and the store are the same whatever links follow it. *)
Theorem find_path_first_match start finish b final_page session pre link post :
  _validate_page start = Ok (b, pre ++ link :: post) ->
  _validate_page finish = Ok final_page ->
  Forall (fun l => expansion session finish l false) pre ->
  expansion session finish link true ->
  exists new,
    find_path start finish session =
      (Ok (PyList [start; link; finish]), session ++ new) /\
    Forall (fun page => In (title page) (pre ++ [link])) new /\
    (forall post',
        for_link finish (pre ++ link :: post') false [start; finish] session =
          (Ok (true, [start; link; finish]), session ++ new)).
Proof.
  intros Hs Hf Hpre Hlead.
  rewrite (find_path_valid _ _ _ _ _ _ Hs Hf).
  destruct (for_link_first_match finish pre link session)
    as (new & E & _ & Ht).
  - eapply Forall_impl; [|exact Hpre]. intros l. apply expansion_quiet.
  - now apply expansion_finds.
  - exists new. rewrite E. repeat split; [exact Ht | intros post'; apply E].
Qed.

(** C3, as the code has it: with [start] and [finish] valid, if no start
    link has [finish] in its link set and the expansion of each of them
    raises nothing (for a link that is not cached and passes validation the
    backlink query is answered and the title fits its column), [find_path]
    returns the empty list.  No [InvalidPageException] ever leaves
    [find_path]. *)
Theorem find_path_not_found start finish b final_page session start_page_links :
  _validate_page start = Ok (b, start_page_links) ->
  _validate_page finish = Ok final_page ->
  Forall (fun l => expansion session finish l false) start_page_links ->
  (exists new,
     find_path start finish session = (Ok (PyList []), session ++ new)) /\
  (forall start' finish' session0 e session',
     find_path start' finish' session0 = (Raise e, session') ->
     forall t, e <> InvalidPageException t).
Proof.
  intros Hs Hf Hall. split; [|apply find_path_raises].
  rewrite (find_path_valid _ _ _ _ _ _ Hs Hf).
  destruct (for_link_quiet finish start_page_links session) as (new & E & _).
  - eapply Forall_impl; [|exact Hall]. intros l. apply expansion_quiet.
  - exists new. specialize (E [] [start; finish]).
    rewrite app_nil_r in E. rewrite E. reflexivity.
Qed.


(** ** The store during and after a search *)

(** C8: whatever [find_path] returns or raises, the store it leaves is the
    one it was given followed by new rows, and each new row mirrors a
    successful validation of its title: its links are not empty and its
    title is not made of separators only.  The same holds for any run of
    the loop, so a store of valid records stays one at every step. *)
Theorem store_holds_validated_pages start finish session :
  (exists new,
     snd (find_path start finish session) = session ++ new /\
     Forall validated new /\
     Forall valid_record new /\
     (Forall valid_record session -> Forall valid_record (session ++ new))) /\
  (forall links_left path_found path session0,
     exists new,
       snd (for_link finish links_left path_found path session0) = session0 ++ new /\
       Forall validated new /\
       (Forall valid_record session0 -> Forall valid_record (session0 ++ new))).
Proof.
  assert (Hvalid : forall new, Forall validated new -> Forall valid_record new).
  { intros new H. eapply Forall_impl; [|exact H]. apply validated_valid. }
  assert (Hloop : forall links_left path_found path session0,
             exists new,
               snd (for_link finish links_left path_found path session0)
                 = session0 ++ new /\ Forall validated new).
  { intros links_left path_found path session0.
    destruct (for_link finish links_left path_found path session0)
      as [r s'] eqn:E.
    apply for_link_extends in E as (new & -> & Hv & _). now exists new. }
  split.
  - assert (Hsame : exists new, session = session ++ new /\ Forall validated new).
    { exists []. now rewrite app_nil_r. }
    assert (H : exists new,
               snd (find_path start finish session) = session ++ new /\
               Forall validated new).
    { unfold find_path, time_elapsed.
      destruct (_validate_page start) as [[b1 sl]|e1]; simpl.
      - destruct (_validate_page finish) as [fp|e2]; simpl.
        + unfold bind.
          destruct (Hloop sl false [start; finish] session) as (new & E & Hv).
          destruct (for_link finish sl false [start; finish] session)
            as [[[pf path]|e] s']; simpl in *; now exists new.
        + destruct e2; exact Hsame.
      - destruct e1; exact Hsame. }
    destruct H as (new & E & Hv). exists new.
    repeat split; auto. intros Hs. apply Forall_app. auto.
  - intros links_left path_found path session0.
    destruct (Hloop links_left path_found path session0) as (new & E & Hv).
    exists new. repeat split; auto. intros Hs. apply Forall_app. auto.
Qed.

(** Replaying the loop on the store it produced, or on any extension of it
    by validated rows, takes the cache-hit branch wherever a row was
    committed and yields the same loop variables without committing. *)
Lemma for_link_replay finish start_page_links :
  forall path_found path session res session1,
    for_link finish start_page_links path_found path session = (Ok res, session1) ->
    forall ext,
      Forall validated ext ->
      for_link finish start_page_links path_found path (session1 ++ ext) =
        (Ok res, session1 ++ ext).
Proof.
  induction start_page_links as [|link rest IH];
    intros path_found path session res session1; simpl.
  - intros [= <- <-] ext _. reflexivity.
  - destruct (query_first link session) as [page|] eqn:Hq.
    + unfold _page_leads_to_term.
      destruct (py_in finish (links page)) eqn:Hin.
      * intros [= <- <-] ext _.
        now rewrite query_first_app, Hq, Hin.
      * intros H ext Hext.
        destruct (for_link_extends _ _ _ _ _ _ _ H) as (new & -> & Hnew & _).
        rewrite <- app_assoc, query_first_app, Hq, Hin, app_assoc.
        now apply (IH _ _ _ _ _ H).
    + destruct (_validate_page link) as [[b page_links]|e] eqn:Hv.
      * unfold bind, _create_link_obj.
        destruct (_get_backlinks link) as [bl|e]; [|discriminate].
        destruct (char_length link <=? title_length)%nat; [|discriminate].
        set (page := {| title := link; links := page_links; backlinks := bl |}).
        assert (Hhit : forall tail,
                   query_first link ((session ++ [page]) ++ tail) = Some page).
        { intros tail. rewrite <- app_assoc, query_first_app, Hq. simpl.
          unfold query_first. simpl. now rewrite String.eqb_refl. }
        unfold _page_leads_to_term.
        destruct (py_in finish page_links) eqn:Hin.
        -- unfold ret. intros [= <- <-] ext _.
           rewrite Hhit. simpl. now rewrite Hin.
        -- intros H ext Hext.
           destruct (for_link_extends _ _ _ _ _ _ _ H) as (new & -> & Hnew & _).
           rewrite <- (app_assoc (session ++ [page])), Hhit. simpl. rewrite Hin.
           rewrite app_assoc. now apply (IH _ _ _ _ _ H).
      * destruct e; try discriminate.
        intros H ext Hext.
        destruct (for_link_extends _ _ _ _ _ _ _ H) as (new & -> & Hnew & _).
        rewrite <- app_assoc, query_first_app, Hq.
        destruct (query_first link (new ++ ext)) as [page|] eqn:Hq2.
        -- assert (Hall : Forall validated (new ++ ext)) by now apply Forall_app.
           rewrite (query_first_validated _ _ _ Hall Hq2) in Hv. discriminate.
        -- rewrite app_assoc. now apply (IH _ _ _ _ _ H).
Qed.

(** C9: when a call of [find_path] has returned, calling it again with the
    same arguments on the store it left returns the same value and leaves
    that store as it is: the intermediate title is now a cache hit, and the
    cache-hit branch commits nothing.  The same holds when other validated
    rows were appended to the store in between. *)
Theorem find_path_again start finish session v session1 :
  find_path start finish session = (Ok v, session1) ->
  find_path start finish session1 = (Ok v, session1) /\
  (forall link page path,
      query_first link session1 = Some page ->
      snd (for_link finish [link] false path session1) = session1) /\
  (forall ext,
      Forall validated ext ->
      find_path start finish (session1 ++ ext) = (Ok v, session1 ++ ext)).
Proof.
  intros H.
  assert (Hext : forall ext,
             Forall validated ext ->
             find_path start finish (session1 ++ ext) = (Ok v, session1 ++ ext)).
  { intros ext Hv. revert H. unfold find_path, time_elapsed.
    destruct (_validate_page start) as [[b1 sl]|e1]; simpl.
    - destruct (_validate_page finish) as [fp|e2]; simpl.
      + unfold bind.
        destruct (for_link finish sl false [start; finish] session)
          as [[[pf path]|e] s'] eqn:E; [|discriminate].
        unfold ret. intros [= <- <-].
        now rewrite (for_link_replay _ _ _ _ _ _ _ E ext Hv).
      + destruct e2; try discriminate. unfold ret. now intros [= <- <-].
    - destruct e1; try discriminate. unfold ret. now intros [= <- <-]. }
  split; [|split; [|exact Hext]].
  - specialize (Hext [] (Forall_nil _)). now rewrite app_nil_r in Hext.
  - intros link page path Hq. simpl. rewrite Hq.
    unfold _page_leads_to_term.
    destruct (py_in finish (links page)); reflexivity.
Qed.

(** ** _get_links *)

Lemma comprehension_links_missing (pages : list (string * PageEntry)) :
  Exists (fun item => pe_links (snd item) = None) pages ->
  comprehension (fun entry => getitem "links" (pe_links entry)) (map snd pages)
    = Raise (KeyError "links").
Proof.
  induction 1 as [[k entry] pages H | [k entry] pages _ IH]; simpl in *.
  - now rewrite H.
  - destruct (pe_links entry); simpl; [now rewrite IH | reflexivity].
Qed.

Lemma comprehension_links_present (pages : list (string * PageEntry)) :
  Forall (fun item => pe_links (snd item) <> None) pages ->
  exists lists,
    comprehension (fun entry => getitem "links" (pe_links entry)) (map snd pages)
      = Ok lists /\
    map Some lists = map (fun item => pe_links (snd item)) pages.
Proof.
  induction 1 as [|[k entry] pages H _ (lists & E & Hm)]; simpl in *.
  - now exists [].
  - destruct (pe_links entry) as [l|]; [|contradiction]. simpl.
    rewrite E. exists (l :: lists). simpl. now rewrite Hm.
Qed.

Lemma link_titles_missing (entries : list LinkEntry) :
  Exists (fun entry => le_title entry = None) entries ->
  link_titles entries = Raise (KeyError "title").
Proof.
  induction 1 as [entry entries H | entry entries _ IH]; simpl.
  - now rewrite H.
  - destruct (le_title entry); simpl; [now rewrite IH | reflexivity].
Qed.

Lemma link_titles_entries (titles : list string) :
  link_titles (link_entries titles) = Ok (filter no_red_flag titles).
Proof.
  induction titles as [|t titles IH]; simpl; [reflexivity|].
  rewrite IH. now destruct (no_red_flag t).
Qed.

Lemma get_links_response page pageid titles :
  requests_get (LinksParams page LINKS_PER_PAGE)
    = Some (links_response pageid titles) ->
  _get_links page = Ok (filter no_red_flag titles).
Proof.
  intros H. unfold _get_links, fetch. rewrite H. simpl.
  apply link_titles_entries.
Qed.

Lemma no_red_flag_spec t :
  no_red_flag t = true <->
  forall char, In char (list_ascii_of_string t) -> ~ In char TITLE_RED_FLAGS.
Proof.
  unfold no_red_flag. rewrite forallb_forall.
  assert (Hflag : forall char, red_flag char = true <-> In char TITLE_RED_FLAGS).
  { intros char. unfold red_flag. rewrite existsb_exists. split.
    - intros (x & Hin & Heq). apply Ascii.eqb_eq in Heq. now subst.
    - intros Hin. exists char. split; [assumption | apply Ascii.eqb_refl]. }
  split; intros H char Hin.
  - intros Hf. apply Hflag in Hf. specialize (H char Hin).
    rewrite Hf in H. discriminate.
  - apply negb_true_iff. destruct (red_flag char) eqn:E; [|reflexivity].
    exfalso. apply (H char Hin). now apply Hflag.
Qed.

(** C5, as the code has it: a request that fails or a body that does not
    decode, a response without [query] or without [pages], a [pages] object
    with no entry, and a link entry without [title] each leave [_get_links]
    as an exception, which no list equals.  A response in which a page entry
    lacks [links] is caught and returned as the empty list, and the page then
    fails validation like a page without links. *)
Theorem get_links_fault_cases page :
  (requests_get (LinksParams page LINKS_PER_PAGE) = None ->
     _get_links page = Raise RequestException) /\
  (forall response,
      requests_get (LinksParams page LINKS_PER_PAGE) = Some response ->
      r_query response = None ->
      _get_links page = Raise (KeyError "query")) /\
  (forall response query,
      requests_get (LinksParams page LINKS_PER_PAGE) = Some response ->
      r_query response = Some query ->
      (q_pages query = None -> _get_links page = Raise (KeyError "pages")) /\
      (q_pages query = Some [] -> _get_links page = Raise IndexError) /\
      (forall pageid entries pages,
          q_pages query = Some ((pageid, {| pe_links := Some entries |}) :: pages) ->
          Forall (fun item => pe_links (snd item) <> None) pages ->
          Exists (fun entry => le_title entry = None) entries ->
          _get_links page = Raise (KeyError "title")) /\
      (forall pages,
          q_pages query = Some pages ->
          Exists (fun item => pe_links (snd item) = None) pages ->
          _get_links page = Ok [] /\
          _validate_page page = Raise (InvalidPageException page))) /\
  (forall e page_links,
      _get_links page = Raise e -> _get_links page <> Ok page_links).
Proof.
  split; [|split; [|split]].
  - intros H. unfold _get_links, fetch. now rewrite H.
  - intros response H Hq. unfold _get_links, fetch.
    rewrite H. cbn [rbind]. now rewrite Hq.
  - intros response query H Hq.
    assert (Hunpack : forall pages,
               q_pages query = Some pages ->
               _get_links page =
                 match comprehension
                         (fun entry => getitem "links" (pe_links entry))
                         (map snd pages) with
                 | Raise (KeyError _) => Ok []
                 | Raise e => Raise e
                 | Ok [] => Raise IndexError
                 | Ok (links :: _) => link_titles links
                 end).
    { intros pages Hp. unfold _get_links, fetch.
      rewrite H. cbn [rbind]. rewrite Hq. cbn [rbind getitem].
      now rewrite Hp. }
    assert (Hcaught : forall pages,
               q_pages query = Some pages ->
               Exists (fun item => pe_links (snd item) = None) pages ->
               _get_links page = Ok []).
    { intros pages Hp Hex. rewrite (Hunpack pages Hp).
      now rewrite (comprehension_links_missing pages Hex). }
    split; [|split; [|split]].
    + intros Hp. unfold _get_links, fetch.
      rewrite H. cbn [rbind]. rewrite Hq. cbn [rbind getitem]. now rewrite Hp.
    + intros Hp. now rewrite (Hunpack [] Hp).
    + intros pageid entries pages Hp Hall Hex.
      rewrite (Hunpack _ Hp). simpl.
      destruct (comprehension_links_present pages Hall) as (lists & -> & _).
      now apply link_titles_missing.
    + intros pages Hp Hex. split; [now apply Hcaught with pages|].
      rewrite (validate_unfold page [] (Hcaught pages Hp Hex)). simpl.
      now rewrite orb_true_r.
  - intros e page_links ->. discriminate.
Qed.

(** C6, as the code has it: for a page with more outbound links than
    [LINKS_PER_PAGE], the service returning the first [LINKS_PER_PAGE] of
    them, [_get_links] returns those titles without the ones that contain a
    separator: at most [LINKS_PER_PAGE] titles, none with a separator, and
    exactly [LINKS_PER_PAGE] when none of the returned titles contains
    one. *)
Theorem get_links_at_most_limit page pageid outbound :
  requests_get (LinksParams page LINKS_PER_PAGE)
    = Some (links_response pageid (firstn LINKS_PER_PAGE outbound)) ->
  LINKS_PER_PAGE < length outbound ->
  _get_links page = Ok (kept_titles outbound) /\
  length (kept_titles outbound) <= LINKS_PER_PAGE /\
  Forall (fun t => forall char,
              In char (list_ascii_of_string t) -> ~ In char TITLE_RED_FLAGS)
         (kept_titles outbound) /\
  (forallb no_red_flag (firstn LINKS_PER_PAGE outbound) = true ->
     length (kept_titles outbound) = LINKS_PER_PAGE).
Proof.
  intros H Hlen. unfold kept_titles. repeat split.
  - now apply get_links_response with (pageid := pageid).
  - etransitivity; [apply filter_length_le | apply firstn_le_length].
  - apply Forall_forall. intros t Hin. apply filter_In in Hin as [_ Hin].
    now apply no_red_flag_spec.
  - intros Hall. rewrite (forallb_filter_id _ _ Hall).
    apply firstn_length_le. lia.
Qed.

(** ** Further properties of the helpers *)

Lemma query_first_none link session :
  query_first link session = None <-> ~ In link (map title session).
Proof.
  unfold query_first. induction session as [|p session IH]; simpl.
  - tauto.
  - destruct (String.eqb (title p) link) eqn:E.
    + apply String.eqb_eq in E. split; [discriminate | tauto].
    + apply String.eqb_neq in E. rewrite IH. tauto.
Qed.

Lemma query_first_snoc_miss link session page :
  query_first link session = None ->
  title page = link ->
  query_first link (session ++ [page]) = Some page.
Proof.
  intros Hq Ht. rewrite query_first_app, Hq. unfold query_first. simpl.
  rewrite Ht, String.eqb_refl. reflexivity.
Qed.

Lemma comprehension_links_raises (entries : list PageEntry) e :
  comprehension (fun entry => getitem "links" (pe_links entry)) entries = Raise e ->
  e = KeyError "links".
Proof.
  induction entries as [|entry entries IH]; simpl; [discriminate|].
  destruct (pe_links entry); simpl.
  - destruct (comprehension _ entries); [discriminate|].
    intros [= <-]. now apply IH.
  - now intros [= <-].
Qed.

Lemma link_titles_raises (entries : list LinkEntry) e :
  link_titles entries = Raise e -> e = KeyError "title".
Proof.
  induction entries as [|entry entries IH]; simpl; [discriminate|].
  destruct (le_title entry); simpl.
  - destruct (link_titles entries); [discriminate|].
    intros [= <-]. now apply IH.
  - now intros [= <-].
Qed.

Lemma link_titles_clean (entries : list LinkEntry) :
  forall titles,
    link_titles entries = Ok titles ->
    Forall (fun t => no_red_flag t = true) titles /\
    length titles <= length entries.
Proof.
  induction entries as [|entry entries IH]; simpl; intros titles.
  - intros [= <-]. split; [constructor | apply le_n].
  - destruct (le_title entry) as [t|]; simpl; [|discriminate].
    destruct (link_titles entries) as [rest|]; [|discriminate].
    destruct (IH rest eq_refl) as [Hc Hl].
    destruct (no_red_flag t) eqn:E; intros [= <-]; split; simpl; auto.
    apply le_n_S, Hl.
Qed.

Lemma link_titles_titled (entries : list LinkEntry) :
  forall titles,
    map le_title entries = map Some titles ->
    link_titles entries = Ok (filter no_red_flag titles).
Proof.
  induction entries as [|entry entries IH]; intros [|t titles]; simpl;
    try discriminate; [reflexivity|].
  intros [= Ht Hrest]. rewrite Ht. simpl. rewrite (IH titles Hrest).
  now destruct (no_red_flag t).
Qed.

(** What [_get_links] can raise. *)
Lemma get_links_raises page e :
  _get_links page = Raise e ->
  e = RequestException \/ e = KeyError "query" \/ e = KeyError "pages" \/
  e = IndexError \/ e = KeyError "title".
Proof.
  unfold _get_links, fetch.
  destruct (requests_get _) as [response|]; simpl; [|intros [= <-]; auto].
  destruct (r_query response) as [query|]; simpl; [|intros [= <-]; auto].
  destruct (q_pages query) as [pages|]; simpl; [|intros [= <-]; auto 6].
  destruct (comprehension _ (map snd pages)) as [[|l lists]|e0] eqn:E.
  - intros [= <-]. auto 6.
  - intros H. apply link_titles_raises in H. auto 6.
  - apply comprehension_links_raises in E. subst e0. discriminate.
Qed.

Lemma validate_invalid_inv t t' :
  _validate_page t = Raise (InvalidPageException t') ->
  t' = t /\ fails_validation t = true.
Proof.
  unfold _validate_page, fails_validation, valid_title, all_separators.
  destruct (_get_links t) as [ls|e] eqn:Hl; simpl.
  - rewrite negb_involutive.
    destruct (forallb red_flag _ || (length ls =? 0)%nat); [|discriminate].
    intros [= <-]. auto.
  - intros [= ->]. apply get_links_raises in Hl.
    destruct Hl as [H | [H | [H | [H | H]]]]; discriminate.
Qed.

Lemma validate_ok_passes t b page_links :
  _validate_page t = Ok (b, page_links) ->
  fails_validation t = false /\ is_ok (_get_links t) = true.
Proof.
  intros H. apply validate_ok in H as (_ & Hl & Hs & Hne).
  unfold fails_validation. rewrite Hl, Hs. simpl.
  split; [|reflexivity]. now destruct page_links.
Qed.

(** X1: whatever the response, a title that [_get_links] returns holds no
    separator; so among the titles it returns the character rule of
    [_validate_page] rejects the empty title and no other. *)
Theorem get_links_titles_clean page titles :
  _get_links page = Ok titles ->
  forall t,
    In t titles ->
    (forall char, In char (list_ascii_of_string t) -> ~ In char TITLE_RED_FLAGS) /\
    (all_separators t = true <-> t = "").
Proof.
  intros Hl t Hin.
  assert (Hclean : no_red_flag t = true).
  { revert Hl. unfold _get_links, fetch.
    destruct (requests_get _) as [response|]; simpl; [|discriminate].
    destruct (r_query response) as [query|]; simpl; [|discriminate].
    destruct (q_pages query) as [pages|]; simpl; [|discriminate].
    destruct (comprehension _ (map snd pages)) as [[|l lists]|e0] eqn:E.
    - discriminate.
    - intros H. apply link_titles_clean in H as [H _].
      rewrite Forall_forall in H. now apply H.
    - destruct e0; try discriminate. intros [= <-]. destruct Hin. }
  split; [now apply no_red_flag_spec|].
  split; [|now intros ->].
  destruct t as [|c t]; [reflexivity|].
  unfold no_red_flag in Hclean. unfold all_separators. simpl in *.
  apply andb_prop in Hclean as [Hc _]. apply negb_true_iff in Hc.
  rewrite Hc. discriminate.
Qed.

(** X2: when every page entry of the response has [links] and the link
    entries of the first one have titles, [_get_links] returns the titles of
    that first entry, in their order, without those that hold a separator;
    the links of the other entries never reach the result. *)
Theorem get_links_first_entry page response query pageid entries others titles :
  requests_get (LinksParams page LINKS_PER_PAGE) = Some response ->
  r_query response = Some query ->
  q_pages query = Some ((pageid, {| pe_links := Some entries |}) :: others) ->
  Forall (fun item => pe_links (snd item) <> None) others ->
  map le_title entries = map Some titles ->
  _get_links page = Ok (filter no_red_flag titles) /\
  length (filter no_red_flag titles) <= length entries.
Proof.
  intros H Hq Hp Hall Ht.
  assert (Hl : _get_links page = Ok (filter no_red_flag titles)).
  { unfold _get_links, fetch. rewrite H. cbn [rbind]. rewrite Hq.
    cbn [rbind getitem]. rewrite Hp. simpl.
    destruct (comprehension_links_present others Hall) as (lists & -> & _).
    now apply link_titles_titled. }
  split; [exact Hl|].
  etransitivity; [apply filter_length_le|].
  rewrite <- (length_map le_title entries), Ht, length_map. apply le_n.
Qed.

(** X3: every case of [_get_backlinks].  A request that fails raises
    [RequestException]; a response without [query] raises [KeyError] for
    [query]; one with [query] but without [backlinks] raises [KeyError] for
    [backlinks]; otherwise the result has one element per backlink entry, in
    order and unfiltered, an entry without [title] giving [None] instead of
    an exception. *)
Theorem get_backlinks_cases page :
  (requests_get (BacklinksParams page LINKS_PER_PAGE) = None ->
     _get_backlinks page = Raise RequestException) /\
  (forall response,
      requests_get (BacklinksParams page LINKS_PER_PAGE) = Some response ->
      (r_query response = None ->
         _get_backlinks page = Raise (KeyError "query")) /\
      (forall query,
          r_query response = Some query ->
          (q_backlinks query = None ->
             _get_backlinks page = Raise (KeyError "backlinks")) /\
          (forall entries,
              q_backlinks query = Some entries ->
              _get_backlinks page = Ok (map be_title entries) /\
              length (map be_title entries) = length entries))).
Proof.
  unfold _get_backlinks, fetch. split.
  - now intros ->.
  - intros response ->. cbn [rbind]. split.
    + now intros ->.
    + intros query ->. cbn [rbind getitem]. split.
      * now intros ->.
      * intros entries ->. split; [reflexivity | apply length_map].
Qed.

(** X4: [_create_link_obj] commits exactly when the backlink query is
    answered and the title fits its column: then one row is appended, which
    carries the given title and links and the backlinks just fetched.
    Otherwise it raises, what [_get_backlinks] raised or else [DataError],
    and leaves the store as it was.  After a commit a lookup of the title
    finds a row of that title, the new row when the title was not stored
    before; lookups of other titles are unchanged. *)
Theorem create_link_obj_lookup t page_links session :
  match _create_link_obj t page_links session with
  | (Ok page, session') =>
      title page = t /\ links page = page_links /\
      _get_backlinks t = Ok (backlinks page) /\
      char_length t <= title_length /\
      session' = session ++ [page] /\
      (uncached session t -> query_first t session' = Some page) /\
      (exists row, query_first t session' = Some row /\ title row = t) /\
      (forall l, l <> t -> query_first l session' = query_first l session)
  | (Raise e, session') =>
      session' = session /\
      (_get_backlinks t = Raise e \/
       (is_ok (_get_backlinks t) = true /\ e = DataError /\
        title_length < char_length t))
  end.
Proof.
  unfold _create_link_obj. destruct (_get_backlinks t) as [bl|e]; [|auto].
  destruct (char_length t <=? title_length)%nat eqn:Hlen.
  - apply Nat.leb_le in Hlen.
    set (page := {| title := t; links := page_links; backlinks := bl |}).
    repeat split; auto.
    + intros Hun. apply query_first_snoc_miss; [|reflexivity].
      now apply query_first_uncached.
    + rewrite query_first_app.
      destruct (query_first t session) as [old|] eqn:Hq.
      * exists old. split; [reflexivity|]. now apply query_first_some in Hq.
      * exists page. split; [|reflexivity].
        unfold query_first. simpl. now rewrite String.eqb_refl.
    + intros l Hne. rewrite query_first_app.
      destruct (query_first l session); [reflexivity|].
      unfold query_first. simpl.
      destruct (String.eqb t l) eqn:E; [|reflexivity].
      apply String.eqb_eq in E. congruence.
  - apply Nat.leb_gt in Hlen. split; [reflexivity|]. right. auto.
Qed.

(** [_page_leads_to_term] answers whether [term] is among the links.
    When it is not, the path is left alone; when it is, the title goes in
    right behind the first element of the path, or becomes the only element
    of an empty path, and the path is one longer. *)
Lemma page_leads_to_term_spec page_title page_links term path :
  (fst (_page_leads_to_term page_title page_links term path) = true <->
     In term page_links) /\
  (~ In term page_links ->
     snd (_page_leads_to_term page_title page_links term path) = path) /\
  (In term page_links ->
     snd (_page_leads_to_term page_title page_links term path) =
       match path with
       | [] => [page_title]
       | first :: rest => first :: page_title :: rest
       end /\
     length (snd (_page_leads_to_term page_title page_links term path)) =
       S (length path)).
Proof.
  unfold _page_leads_to_term.
  destruct (py_in term page_links) eqn:E; simpl.
  - apply py_in_spec in E. repeat split; auto; try contradiction.
    + now destruct path.
    + destruct path; simpl; reflexivity.
  - assert (Hno : ~ In term page_links).
    { intros Hin. apply py_in_spec in Hin. congruence. }
    repeat split; auto; try discriminate; contradiction.
Qed.

(** ** Further properties of the search *)

(** What the loop hands back when it returns: either nothing was found and
    the path is as it was, or a candidate was spliced in whose row, as the
    store now has it, lists [finish]. *)
Lemma for_link_returns finish start_page_links :
  forall path session path_found path' session',
    for_link finish start_page_links false path session
      = (Ok (path_found, path'), session') ->
    (path_found = false /\ path' = path) \/
    (path_found = true /\
     exists link page,
       In link start_page_links /\
       path' = list_insert 1 link path /\
       query_first link session' = Some page /\
       py_in finish (links page) = true).
Proof.
  induction start_page_links as [|link rest IH];
    intros path session path_found path' session'; simpl.
  - intros [= <- <- <-]. now left.
  - assert (Hrest : forall s,
               for_link finish rest false path s = (Ok (path_found, path'), session') ->
               (path_found = false /\ path' = path) \/
               (path_found = true /\
                exists link0 page,
                  In link0 (link :: rest) /\
                  path' = list_insert 1 link0 path /\
                  query_first link0 session' = Some page /\
                  py_in finish (links page) = true)).
    { intros s H. apply IH in H as [H | (-> & l & p & Hin & Hp & Hq & Hf)];
        [now left|].
      right. split; [reflexivity|]. exists l, p. simpl. auto. }
    destruct (query_first link session) as [page|] eqn:Hq.
    + unfold _page_leads_to_term.
      destruct (py_in finish (links page)) eqn:Hin; [|apply Hrest].
      intros [= <- <- <-]. right. split; [reflexivity|].
      exists link, page. simpl. auto.
    + destruct (_validate_page link) as [[b page_links]|e] eqn:Hv.
      * unfold bind, _create_link_obj.
        destruct (_get_backlinks link) as [bl|e]; [|discriminate].
        destruct (char_length link <=? title_length)%nat; [|discriminate].
        unfold _page_leads_to_term.
        destruct (py_in finish page_links) eqn:Hin; [|apply Hrest].
        unfold ret. intros [= <- <- <-]. right. split; [reflexivity|].
        exists link, {| title := link; links := page_links; backlinks := bl |}.
        simpl. repeat split; auto.
        now apply query_first_snoc_miss.
      * destruct e; try discriminate. apply Hrest.
Qed.

(** X5: a list that [find_path] returns is empty or has exactly the three
    elements [[start; link; finish]], never the two-element path of a direct
    link.  In the second case [link] is one of the links fetched for
    [start], and the row the store now holds for [link] lists [finish]. *)
Theorem find_path_sound start finish session l session' :
  find_path start finish session = (Ok (PyList l), session') ->
  exists start_page_links,
    _get_links start = Ok start_page_links /\
    (l = [] \/
     exists link page,
       l = [start; link; finish] /\
       In link start_page_links /\
       query_first link session' = Some page /\
       In finish (links page)).
Proof.
  unfold find_path, time_elapsed.
  destruct (_validate_page start) as [[b1 sl]|e1] eqn:Hs; simpl.
  - destruct (_validate_page finish) as [fp|e2]; simpl.
    + unfold bind.
      destruct (for_link finish sl false [start; finish] session)
        as [[[pf path]|e] s'] eqn:E; [|discriminate].
      unfold ret. intros [= <- <-].
      apply validate_ok in Hs as (_ & Hl & _). exists sl. split; [exact Hl|].
      apply for_link_returns in E
        as [[-> ->] | (-> & link & page & Hin & -> & Hq & Hf)]; [now left|].
      right. exists link, page. repeat split; auto. now apply py_in_spec.
    + unfold ret, raise. destruct e2; discriminate.
  - unfold ret, raise. destruct e1; discriminate.
Qed.

(** X6: when [find_path] returns a string, nothing was looked up or
    committed in the store, and the string is the message for [start], whose
    validation failed, or, [start] being valid, the message for [finish],
    whose validation failed. *)
Theorem find_path_string_outcome start finish session s session' :
  find_path start finish session = (Ok (PyStr s), session') ->
  session' = session /\
  ((fails_validation start = true /\ s = message start) \/
   (fails_validation start = false /\ is_ok (_get_links start) = true /\
    fails_validation finish = true /\ s = message finish)).
Proof.
  unfold find_path, time_elapsed.
  destruct (_validate_page start) as [[b1 sl]|e1] eqn:Hs; simpl.
  - apply validate_ok_passes in Hs as [Hs1 Hs2].
    destruct (_validate_page finish) as [fp|e2] eqn:Hf; simpl.
    + unfold bind.
      destruct (for_link finish sl false [start; finish] session)
        as [[[pf path]|e] s']; discriminate.
    + unfold ret, raise. destruct e2; try discriminate.
      intros [= <- <-]. apply validate_invalid_inv in Hf as [-> Hf].
      split; [reflexivity|]. right. auto.
  - unfold ret, raise. destruct e1; try discriminate.
    intros [= <- <-]. apply validate_invalid_inv in Hs as [-> Hs].
    split; [reflexivity|]. left. auto.
Qed.

(** A run of the loop commits at most one row per candidate, each for a
    title the store did not hold, so titles that were unique stay unique. *)
Lemma for_link_rows finish start_page_links :
  forall path_found path session r session',
    for_link finish start_page_links path_found path session = (r, session') ->
    length session' <= length session + length start_page_links /\
    (NoDup (map title session) -> NoDup (map title session')).
Proof.
  induction start_page_links as [|link rest IH];
    intros path_found path session r session'; simpl.
  - intros [= <- <-]. split; [lia | auto].
  - assert (Hrest : forall pf p,
               for_link finish rest pf p session = (r, session') ->
               length session' <= length session + S (length rest) /\
               (NoDup (map title session) -> NoDup (map title session'))).
    { intros pf p H. apply IH in H as [H1 H2]. split; [lia | exact H2]. }
    assert (Hstop : forall (x : result (bool * list string)),
               (x, session) = (r, session') ->
               length session' <= length session + S (length rest) /\
               (NoDup (map title session) -> NoDup (map title session'))).
    { intros x [= <- <-]. split; [lia | auto]. }
    destruct (query_first link session) as [page|] eqn:Hq.
    + unfold _page_leads_to_term.
      destruct (py_in finish (links page)); [apply Hstop | apply Hrest].
    + destruct (_validate_page link) as [[b page_links]|e].
      * unfold bind, _create_link_obj.
        destruct (_get_backlinks link) as [bl|e]; [|apply Hstop].
        destruct (char_length link <=? title_length)%nat; [|apply Hstop].
        set (page := {| title := link; links := page_links; backlinks := bl |}).
        assert (Hlen : length (session ++ [page]) = S (length session)).
        { rewrite length_app. simpl. lia. }
        assert (Hnd : NoDup (map title session) ->
                      NoDup (map title (session ++ [page]))).
        { intros Hn. rewrite map_app. simpl.
          apply NoDup_app; [exact Hn | repeat constructor; auto |].
          intros x Hx [<- | []]. now apply query_first_none in Hq. }
        unfold _page_leads_to_term. destruct (py_in finish page_links).
        -- unfold ret. intros [= <- <-]. split; [lia | exact Hnd].
        -- intros H. apply IH in H as [H1 H2]. split; [lia | auto].
      * destruct e; try apply Hstop. apply Hrest.
Qed.

(** X7: a search never gives a title a second row: when the titles of the
    store are pairwise distinct before [find_path], they are so after it,
    whether it returns or raises. *)
Theorem find_path_keeps_titles_unique start finish session :
  NoDup (map title session) ->
  NoDup (map title (snd (find_path start finish session))).
Proof.
  intros Hn. unfold find_path, time_elapsed.
  destruct (_validate_page start) as [[b1 sl]|e1]; simpl.
  - destruct (_validate_page finish) as [fp|e2]; simpl.
    + unfold bind.
      destruct (for_link finish sl false [start; finish] session)
        as [r s'] eqn:E.
      apply for_link_rows in E as [_ H].
      destruct r as [[pf path]|e]; simpl; auto.
    + destruct e2; exact Hn.
  - destruct e1; exact Hn.
Qed.

(** X8: a search commits at most one row for each link fetched for
    [start]. *)
Theorem find_path_commits_bounded start finish session start_page_links :
  _get_links start = Ok start_page_links ->
  length (snd (find_path start finish session))
    <= length session + length start_page_links.
Proof.
  intros Hl. unfold find_path, time_elapsed.
  rewrite (validate_unfold start start_page_links Hl).
  destruct (all_separators start || (length start_page_links =? 0)%nat); simpl.
  - lia.
  - destruct (_validate_page finish) as [fp|e2]; simpl.
    + unfold bind.
      destruct (for_link finish start_page_links false [start; finish] session)
        as [r s'] eqn:E.
      apply for_link_rows in E as [H _].
      destruct r as [[pf path]|e]; simpl; exact H.
    + destruct e2; simpl; lia.
Qed.

End WikiRacer.

(** ** The racer on the sample corpus *)

Lemma validate_page_spec_witness :
  _get_links wiki "War:Resources" = Ok ["Rome"] /\
  all_separators "War:Resources" = false /\
  _validate_page wiki "War:Resources" = Ok (true, ["Rome"]).
Proof.
  split; [reflexivity|].
  destruct (validate_page_spec wiki "War:Resources" ["Rome"] eq_refl)
    as (_ & _ & _ & H).
  destruct H as [H1 H2].
  - exists "W"%char. split; [simpl; auto|].
    simpl. intros [H | [H | []]]; discriminate.
  - split; [exact H1 | apply H2; discriminate].
Defined.

Lemma validate_empty_title_witness :
  _get_links wiki "" = Ok ["Rome"] /\
  _validate_page wiki "" = Raise (InvalidPageException "").
Proof.
  split; [reflexivity|].
  apply (validate_empty_title wiki ["Rome"]). reflexivity.
Defined.

Lemma find_path_invalid_outcome_witness :
  fails_validation wiki "GIBIBIBI" = true /\
  exists t,
    (t = "GIBIBIBI" \/ t = "Rome") /\
    find_path wiki "GIBIBIBI" "Rome" cached = (Ok (PyStr (message t)), cached) /\
    (forall path, PyStr (message t) <> PyList path) /\
    PyStr (message t) <> PyList [].
Proof.
  split; [reflexivity|].
  apply (find_path_invalid_outcome wiki "GIBIBIBI" "Rome" cached).
  left. reflexivity.
Defined.

Lemma find_path_first_match_witness :
  _validate_page wiki "Friendship" = Ok (true, ["GIBIBIBI"; "Trust"; "X"] ++ "Y" :: []) /\
  _validate_page wiki "Rome" = Ok (true, ["Italy"]) /\
  Forall (fun l => expansion wiki stale "Rome" l false) ["GIBIBIBI"; "Trust"; "X"] /\
  expansion wiki stale "Rome" "Y" true /\
  exists new,
    find_path wiki "Friendship" "Rome" stale =
      (Ok (PyList ["Friendship"; "Y"; "Rome"]), stale ++ new) /\
    Forall (fun page => In (title page) (["GIBIBIBI"; "Trust"; "X"] ++ ["Y"])) new /\
    (forall post',
        for_link wiki "Rome" (["GIBIBIBI"; "Trust"; "X"] ++ "Y" :: post') false
                 ["Friendship"; "Rome"] stale =
          (Ok (true, ["Friendship"; "Y"; "Rome"]), stale ++ new)).
Proof.
  assert (Hskip : expansion wiki stale "Rome" "GIBIBIBI" false).
  { apply (expansion_skip wiki stale "Rome" "GIBIBIBI" []).
    - repeat constructor; discriminate.
    - reflexivity.
    - now right. }
  assert (Hfetch : expansion wiki stale "Rome" "Trust" false).
  { apply (expansion_fetch wiki stale "Rome" "Trust" ["Friendship"]
             [Some "Friendship"] false).
    - repeat constructor; discriminate.
    - reflexivity.
    - reflexivity.
    - discriminate.
    - reflexivity.
    - apply Nat.leb_le. reflexivity.
    - split; [discriminate | intros [H | []]; discriminate]. }
  assert (Hhit : expansion wiki stale "Rome" "X" false).
  { apply (expansion_hit wiki stale "Rome" "X"
             {| title := "X"; links := ["Florence"]; backlinks := [] |} false).
    - exists [], [{| title := "X"; links := ["Rome"; "Florence"]; backlinks := [] |}].
      repeat split. constructor.
    - split; [discriminate | intros [H | []]; discriminate]. }
  assert (Hlink : expansion wiki stale "Rome" "Y" true).
  { apply (expansion_fetch wiki stale "Rome" "Y" ["Rome"]
             [Some "Friendship"] true).
    - repeat constructor; discriminate.
    - reflexivity.
    - reflexivity.
    - discriminate.
    - reflexivity.
    - apply Nat.leb_le. reflexivity.
    - split; [intros _; now left | reflexivity]. }
  assert (Hpre : Forall (fun l => expansion wiki stale "Rome" l false)
                        ["GIBIBIBI"; "Trust"; "X"]).
  { repeat constructor; assumption. }
  repeat (split; [first [reflexivity | exact Hpre | exact Hlink]|]).
  apply (find_path_first_match wiki "Friendship" "Rome" true (true, ["Italy"])
           stale ["GIBIBIBI"; "Trust"; "X"] "Y" [] eq_refl eq_refl Hpre Hlink).
Defined.

Lemma find_path_not_found_witness :
  _validate_page wiki "Trust" = Ok (true, ["Friendship"]) /\
  _validate_page wiki "Rome" = Ok (true, ["Italy"]) /\
  Forall (fun l => expansion wiki [] "Rome" l false) ["Friendship"] /\
  exists new, find_path wiki "Trust" "Rome" [] = (Ok (PyList []), [] ++ new).
Proof.
  assert (Hall : Forall (fun l => expansion wiki [] "Rome" l false) ["Friendship"]).
  { repeat constructor.
    apply (expansion_fetch wiki [] "Rome" "Friendship"
             ["GIBIBIBI"; "Trust"; "X"; "Y"] [Some "Trust"] false).
    - constructor.
    - reflexivity.
    - reflexivity.
    - discriminate.
    - reflexivity.
    - apply Nat.leb_le. reflexivity.
    - split; [discriminate|].
      intros [H | [H | [H | [H | []]]]]; discriminate. }
  repeat (split; [first [reflexivity | exact Hall]|]).
  apply (find_path_not_found wiki "Trust" "Rome" true (true, ["Italy"])
           [] ["Friendship"] eq_refl eq_refl Hall).
Defined.


Lemma find_path_again_witness :
  fst (find_path wiki "Friendship" "Rome" []) = Ok (PyList ["Friendship"; "X"; "Rome"]) /\
  length (snd (find_path wiki "Friendship" "Rome" [])) = 2 /\
  find_path wiki "Friendship" "Rome" (snd (find_path wiki "Friendship" "Rome" []))
    = find_path wiki "Friendship" "Rome" [].
Proof.
  split; [reflexivity|]. split; [reflexivity|].
  destruct (find_path_again wiki "Friendship" "Rome" []
              (PyList ["Friendship"; "X"; "Rome"])
              (snd (find_path wiki "Friendship" "Rome" [])) eq_refl) as [H _].
  rewrite H. reflexivity.
Defined.

Lemma get_links_at_most_limit_witness :
  big_wiki (LinksParams "Ukraine" LINKS_PER_PAGE)
    = Some (links_response "1" (firstn LINKS_PER_PAGE ukraine_links)) /\
  LINKS_PER_PAGE < length ukraine_links /\
  _get_links big_wiki "Ukraine" = Ok (kept_titles ukraine_links) /\
  length (kept_titles ukraine_links) <= LINKS_PER_PAGE.
Proof.
  assert (Hlen : LINKS_PER_PAGE < length ukraine_links).
  { vm_compute. lia. }
  split; [reflexivity|]. split; [exact Hlen|].
  destruct (get_links_at_most_limit big_wiki "Ukraine" "1" ukraine_links
              eq_refl Hlen) as (H1 & H2 & _).
  split; assumption.
Defined.

(** ** Where the code departs from the specification *)

(** A response with a page entry that lacks [links] comes out of
    [_get_links] as the empty list, exactly like a page without links, and
    the page then fails validation: a lookup failure while unpacking is
    not told apart from "no links". *)
Lemma get_links_conflates_lookup_failure :
  _get_links (fun _ => Some garbled_response) "Rome" = Ok [] /\
  _get_links (fun _ => Some missing_response) "Rome" = Ok [] /\
  _get_links (fun _ => Some (links_response "1" [])) "Rome" = Ok [] /\
  _validate_page (fun _ => Some garbled_response) "Rome"
    = Raise (InvalidPageException "Rome").
Proof. repeat split. Qed.

(** The page has 201 outbound links and the service returns the first 200;
    one of these has a slash in its title, so 199 titles come back. *)
Lemma get_links_below_limit :
  LINKS_PER_PAGE < length ukraine_links /\
  big_wiki (LinksParams "Ukraine" LINKS_PER_PAGE)
    = Some (links_response "1" (firstn LINKS_PER_PAGE ukraine_links)) /\
  exists titles,
    _get_links big_wiki "Ukraine" = Ok titles /\
    length titles = 199 /\
    length titles <> LINKS_PER_PAGE.
Proof.
  split; [|split; [reflexivity|]].
  - vm_compute. lia.
  - exists (repeat "Kyiv" 199). split; [vm_compute; reflexivity|].
    split; [apply repeat_length|]. rewrite repeat_length. discriminate.
Qed.

(** Both titles are valid and no start link has [finish] among its links,
    yet an exception leaves [find_path]: with the backlink query of the
    candidate [Friendship] failing, and with the candidate of 151
    characters, whose row the database refuses. *)
Lemma find_path_provider_fault :
  (_validate_page (remote_backlinks_down corpus) "Trust" = Ok (true, ["Friendship"]) /\
   _validate_page (remote_backlinks_down corpus) "Rome" = Ok (true, ["Italy"]) /\
   _get_links (remote_backlinks_down corpus) "Friendship"
     = Ok ["GIBIBIBI"; "Trust"; "X"; "Y"] /\
   ~ In "Rome" ["GIBIBIBI"; "Trust"; "X"; "Y"] /\
   find_path (remote_backlinks_down corpus) "Trust" "Rome" []
     = (Raise RequestException, [])) /\
  (_validate_page (remote long_corpus) "Trust" = Ok (true, ["GIBIBIBI"; long_title]) /\
   _validate_page (remote long_corpus) "Rome" = Ok (true, ["Italy"]) /\
   _get_links (remote long_corpus) "GIBIBIBI" = Ok [] /\
   _get_links (remote long_corpus) long_title = Ok ["X"] /\
   ~ In "Rome" ["X"] /\
   _get_backlinks (remote long_corpus) long_title = Ok [Some "Trust"] /\
   char_length long_title = 151 /\
   find_path (remote long_corpus) "Trust" "Rome" [] = (Raise DataError, [])).
Proof.
  repeat split; try (vm_compute; reflexivity).
  - intros [H | [H | [H | [H | []]]]]; discriminate.
  - intros [H | []]; discriminate.
Qed.

(** Both titles are valid and a start link has [finish] in its link set,
    yet no path is returned: [Friendship] lists [X], but its backlink query
    fails; the page of 151 characters lists [X], but the database refuses
    its row. *)
Lemma first_match_not_returned :
  (_validate_page (remote_backlinks_down corpus) "Trust" = Ok (true, ["Friendship"]) /\
   _validate_page (remote_backlinks_down corpus) "X" = Ok (true, ["Rome"; "Florence"]) /\
   _get_links (remote_backlinks_down corpus) "Friendship"
     = Ok ["GIBIBIBI"; "Trust"; "X"; "Y"] /\
   In "X" ["GIBIBIBI"; "Trust"; "X"; "Y"] /\
   find_path (remote_backlinks_down corpus) "Trust" "X" []
     = (Raise RequestException, [])) /\
  (_validate_page (remote long_corpus) "Trust" = Ok (true, ["GIBIBIBI"; long_title]) /\
   _validate_page (remote long_corpus) "X" = Ok (true, ["Rome"]) /\
   _get_links (remote long_corpus) "GIBIBIBI" = Ok [] /\
   _get_links (remote long_corpus) long_title = Ok ["X"] /\
   In "X" ["X"] /\
   _get_backlinks (remote long_corpus) long_title = Ok [Some "Trust"] /\
   char_length long_title = 151 /\
   find_path (remote long_corpus) "Trust" "X" [] = (Raise DataError, [])).
Proof.
  repeat split; try (vm_compute; reflexivity); simpl; auto.
Qed.


(** ** The store as a cache *)

Lemma for_link_all_cached rg1 rg2 finish start_page_links :
  forall path_found path session,
    (forall l, In l start_page_links -> query_first l session <> None) ->
    for_link rg1 finish start_page_links path_found path session =
      for_link rg2 finish start_page_links path_found path session /\
    snd (for_link rg1 finish start_page_links path_found path session) = session.
Proof.
  induction start_page_links as [|link rest IH];
    intros path_found path session Hall; simpl; [auto|].
  destruct (query_first link session) as [page|] eqn:Hq.
  - unfold _page_leads_to_term.
    destruct (py_in finish (links page)); [auto|].
    apply IH. intros l Hl. apply Hall. now right.
  - exfalso. apply (Hall link); [now left | exact Hq].
Qed.

(** X9: when the store holds a row for every candidate, the loop asks the
    provider nothing: it gives the same outcome with any two providers, one
    that is down included, and it leaves the store as it was.  The links in
    the rows are taken as they are, without validation. *)
Theorem cached_search_needs_no_provider rg1 rg2 finish start_page_links
    path_found path session :
  (forall l, In l start_page_links -> query_first l session <> None) ->
  for_link rg1 finish start_page_links path_found path session =
    for_link rg2 finish start_page_links path_found path session /\
  snd (for_link rg1 finish start_page_links path_found path session) = session.
Proof. apply for_link_all_cached. Qed.

Lemma for_link_frame rg finish start_page_links :
  forall path_found path s1 s2,
    (forall l, In l start_page_links -> query_first l s1 = query_first l s2) ->
    fst (for_link rg finish start_page_links path_found path s1) =
      fst (for_link rg finish start_page_links path_found path s2).
Proof.
  induction start_page_links as [|link rest IH];
    intros path_found path s1 s2 Hall; simpl; [reflexivity|].
  assert (Hrest : forall l, In l rest -> query_first l s1 = query_first l s2).
  { intros l Hl. apply Hall. now right. }
  rewrite (Hall link (or_introl eq_refl)).
  destruct (query_first link s2) as [page|].
  - unfold _page_leads_to_term.
    destruct (py_in finish (links page)); [reflexivity | now apply IH].
  - destruct (_validate_page rg link) as [[b page_links]|e].
    + unfold bind, _create_link_obj.
      destruct (_get_backlinks rg link) as [bl|e]; [|reflexivity].
      destruct (char_length link <=? title_length)%nat; [|reflexivity].
      unfold _page_leads_to_term.
      destruct (py_in finish page_links); [reflexivity|].
      apply IH. intros l Hl. rewrite !query_first_app. now rewrite (Hrest l Hl).
    + destruct e; try reflexivity. now apply IH.
Qed.

(** X10: what [find_path] returns or raises depends on the store only
    through the rows that a lookup finds for the links of [start]: two
    stores that answer these lookups alike give the same outcome, whatever
    other rows, later duplicates or row order they have. *)
Theorem find_path_store_frame rg start finish s1 s2 :
  (forall start_page_links,
      _get_links rg start = Ok start_page_links ->
      forall l, In l start_page_links -> query_first l s1 = query_first l s2) ->
  fst (find_path rg start finish s1) = fst (find_path rg start finish s2).
Proof.
  intros Hall. unfold find_path, time_elapsed.
  destruct (_validate_page rg start) as [[b1 sl]|e1] eqn:Hs; simpl.
  - destruct (_validate_page rg finish) as [fp|e2]; simpl.
    + apply validate_ok in Hs as (_ & Hl & _).
      pose proof (for_link_frame rg finish sl false [start; finish] s1 s2
                    (Hall sl Hl)) as H.
      unfold bind.
      destruct (for_link rg finish sl false [start; finish] s1) as [r1 t1].
      destruct (for_link rg finish sl false [start; finish] s2) as [r2 t2].
      simpl in H. subst r2. destruct r1 as [[pf path]|e]; reflexivity.
    + destruct e2; reflexivity.
  - destruct e1; reflexivity.
Qed.

(** ** The exceptions of the search *)

Lemma validate_raises_provider rg t e :
  _validate_page rg t = Raise e ->
  e = InvalidPageException t \/
  e = RequestException \/ e = KeyError "query" \/ e = KeyError "pages" \/
  e = IndexError \/ e = KeyError "title".
Proof.
  intros H. apply validate_raises in H as [H | H]; [now left|].
  right. now apply get_links_raises in H.
Qed.

Lemma create_link_obj_raises_provider rg t page_links session e session' :
  _create_link_obj rg t page_links session = (Raise e, session') ->
  e = RequestException \/ e = KeyError "query" \/ e = KeyError "backlinks" \/
  e = DataError.
Proof.
  unfold _create_link_obj, _get_backlinks, fetch.
  destruct (rg _) as [response|]; simpl; [|intros [= <- <-]; auto].
  destruct (r_query response) as [query|]; simpl; [|intros [= <- <-]; auto].
  destruct (q_backlinks query); simpl; [|intros [= <- <-]; auto].
  destruct (char_length t <=? title_length)%nat; [discriminate|].
  intros [= <- <-]. auto.
Qed.

(** What the modelled steps of the loop can raise. *)
Lemma for_link_raises_provider rg finish start_page_links :
  forall path_found path session e session',
    for_link rg finish start_page_links path_found path session = (Raise e, session') ->
    e = RequestException \/ e = KeyError "query" \/ e = KeyError "pages" \/
    e = IndexError \/ e = KeyError "title" \/ e = KeyError "backlinks" \/
    e = DataError.
Proof.
  induction start_page_links as [|link rest IH];
    intros path_found path session e session'; simpl; [discriminate|].
  destruct (query_first link session) as [page|].
  - unfold _page_leads_to_term.
    destruct (py_in finish (links page)); [discriminate | apply IH].
  - destruct (_validate_page rg link) as [[b page_links]|e0] eqn:Hv.
    + unfold bind.
      destruct (_create_link_obj rg link page_links session)
        as [[page_obj|e1] s1] eqn:Hc.
      * unfold _page_leads_to_term.
        destruct (py_in finish page_links); [discriminate | apply IH].
      * intros [= <- <-]. apply create_link_obj_raises_provider in Hc.
        destruct Hc as [-> | [-> | [-> | ->]]]; auto 10.
    + apply validate_raises_provider in Hv.
      destruct Hv as [-> | [-> | [-> | [-> | [-> | ->]]]]];
        try (intros [= <- <-]; auto 10).
      apply IH.
Qed.

(** X11: [InvalidPageException] and the [KeyError] for [links] are always
    caught: whatever the responses and the store, neither of them leaves
    [find_path]. *)
Theorem find_path_exceptions rg start finish session e session' :
  find_path rg start finish session = (Raise e, session') ->
  (forall t, e <> InvalidPageException t) /\ e <> KeyError "links".
Proof.
  intros H.
  assert (He : e = RequestException \/ e = KeyError "query" \/
               e = KeyError "pages" \/ e = IndexError \/
               e = KeyError "title" \/ e = KeyError "backlinks" \/
               e = DataError).
  { revert H. unfold find_path, time_elapsed.
    destruct (_validate_page rg start) as [[b1 sl]|e1] eqn:Hs; simpl.
    - destruct (_validate_page rg finish) as [fp|e2] eqn:Hf; simpl.
      + unfold bind.
        destruct (for_link rg finish sl false [start; finish] session)
          as [[[pf path]|e0] s'] eqn:E; [discriminate|].
        intros [= <- <-]. now apply for_link_raises_provider in E.
      + apply validate_raises_provider in Hf.
        destruct Hf as [-> | [-> | [-> | [-> | [-> | ->]]]]];
          unfold ret, raise; intros [= <- <-]; auto 10.
    - apply validate_raises_provider in Hs.
      destruct Hs as [-> | [-> | [-> | [-> | [-> | ->]]]]];
        unfold ret, raise; intros [= <- <-]; auto 10. }
  destruct He as [-> | [-> | [-> | [-> | [-> | [-> | ->]]]]]];
    split; try intros t; discriminate.
Qed.

(** ** The message of InvalidPageException *)

Lemma append_cancel_l (p a b : string) :
  (p ++ a)%string = (p ++ b)%string -> a = b.
Proof.
  induction p as [|c p IH]; simpl; [auto|]. intros [= H]. auto.
Qed.

Lemma append_dot_nonempty (a : string) : (a ++ ".")%string <> "".
Proof. destruct a; discriminate. Qed.

Lemma append_dot_cancel (a : string) :
  forall b, (a ++ ".")%string = (b ++ ".")%string -> a = b.
Proof.
  induction a as [|c a IH]; intros [|d b]; simpl.
  - reflexivity.
  - intros [= _ H]. symmetry in H. now apply append_dot_nonempty in H.
  - intros [= _ H]. now apply append_dot_nonempty in H.
  - intros [= -> H]. f_equal. auto.
Qed.

(** X12: the message of [InvalidPageException] tells titles apart, with one
    exception: the empty title, being falsy, is printed as [this term] and
    so has the message of the title [this term]. *)
Theorem message_tells_titles_apart t1 t2 :
  message t1 = message t2 <->
  t1 = t2 \/ (t1 = "" /\ t2 = "this term") \/ (t1 = "this term" /\ t2 = "").
Proof.
  split.
  - unfold message. intros H.
    apply append_cancel_l, append_dot_cancel in H.
    destruct (String.eqb t1 "") eqn:E1; destruct (String.eqb t2 "") eqn:E2;
      try apply String.eqb_eq in E1; try apply String.eqb_eq in E2; subst; auto.
  - intros [-> | [[-> ->] | [-> ->]]]; reflexivity.
Qed.

(** ** add_child *)

Lemma add_child_in children page q :
  In q (add_child children page) <-> In q children \/ q = page.
Proof.
  unfold add_child.
  destruct (existsb (Nat.eqb page) children) eqn:E; simpl.
  - apply existsb_exists in E as (x & Hin & Heq).
    apply Nat.eqb_eq in Heq. subst x.
    split; [auto | intros [H | ->]; auto].
  - rewrite in_app_iff. simpl. split; [intros [H | [H | []]] | intros [H | H]]; auto.
Qed.

Lemma add_child_nodup children page :
  NoDup children -> NoDup (add_child children page).
Proof.
  unfold add_child. intros Hn.
  destruct (existsb (Nat.eqb page) children) eqn:E; simpl; [exact Hn|].
  apply NoDup_app; [exact Hn | repeat constructor; auto |].
  intros x Hx [-> | []].
  assert (H : existsb (Nat.eqb x) children = true).
  { apply existsb_exists. exists x. split; [exact Hx | apply Nat.eqb_refl]. }
  congruence.
Qed.

(** X13: [add_child] leaves a page that is already a child where it is and
    appends one that is not.  So the page is a child afterwards, the
    children there were keep their places, adding the same page again
    changes nothing, and children that were pairwise distinct stay so. *)
Theorem add_child_spec children page :
  (forall q, In q (add_child children page) <-> In q children \/ q = page) /\
  (exists tail, add_child children page = children ++ tail /\ length tail <= 1) /\
  add_child (add_child children page) page = add_child children page /\
  (In page children -> add_child children page = children) /\
  (NoDup children -> NoDup (add_child children page)).
Proof.
  split; [intros q; apply add_child_in|].
  assert (Hin : forall c, In page c -> add_child c page = c).
  { intros c H. unfold add_child.
    replace (existsb (Nat.eqb page) c) with true; [reflexivity|].
    symmetry. apply existsb_exists. exists page.
    split; [exact H | apply Nat.eqb_refl]. }
  repeat split.
  - unfold add_child. destruct (existsb (Nat.eqb page) children); simpl.
    + exists []. rewrite app_nil_r. split; [reflexivity | auto].
    + exists [page]. split; [reflexivity | auto].
  - apply Hin. apply add_child_in. now right.
  - apply Hin.
  - apply add_child_nodup.
Qed.

(** X14: children collected by [add_child] alone, starting from none, are
    the pages that were added, each once. *)
Theorem add_child_collects pages :
  NoDup (fold_left add_child pages []) /\
  (forall q, In q (fold_left add_child pages []) <-> In q pages).
Proof.
  assert (H : forall children,
             NoDup children ->
             NoDup (fold_left add_child pages children) /\
             (forall q, In q (fold_left add_child pages children) <->
                        In q children \/ In q pages)).
  { induction pages as [|p pages IH]; intros children Hn; simpl.
    - split; [exact Hn | intros q; tauto].
    - destruct (IH (add_child children p) (add_child_nodup children p Hn))
        as [H1 H2].
      split; [exact H1|]. intros q. rewrite H2, add_child_in.
      split; [intros [[H | ->] | H] | intros [H | [-> | H]]]; auto. }
  destruct (H [] (NoDup_nil _)) as [H1 H2].
  split; [exact H1|]. intros q. rewrite H2. simpl. tauto.
Qed.

(** ** The further properties on the sample corpus *)

Lemma get_links_titles_clean_witness :
  _get_links wiki "Florence" = Ok ["GIBIBIBI"; ""; "X"] /\
  (all_separators "" = true <-> "" = "") /\
  (all_separators "X" = true <-> "X" = "").
Proof.
  split; [reflexivity|]. split.
  - apply (get_links_titles_clean wiki "Florence" ["GIBIBIBI"; ""; "X"] eq_refl "").
    simpl. auto.
  - apply (get_links_titles_clean wiki "Florence" ["GIBIBIBI"; ""; "X"] eq_refl "X").
    simpl. auto.
Defined.

Lemma get_links_first_entry_witness :
  _get_links (fun _ => Some
     {| r_query := Some
          {| q_pages := Some [("1", {| pe_links := Some (link_entries ["Italy"; "AC/DC"]) |});
                              ("2", {| pe_links := Some (link_entries ["Rome"]) |})];
             q_backlinks := None |} |}) "Trust"
    = Ok ["Italy"].
Proof.
  apply (get_links_first_entry
           (fun _ => Some
              {| r_query := Some
                   {| q_pages := Some [("1", {| pe_links := Some (link_entries ["Italy"; "AC/DC"]) |});
                                       ("2", {| pe_links := Some (link_entries ["Rome"]) |})];
                      q_backlinks := None |} |})
           "Trust" _ _ "1" (link_entries ["Italy"; "AC/DC"])
           [("2", {| pe_links := Some (link_entries ["Rome"]) |})]
           ["Italy"; "AC/DC"] eq_refl eq_refl eq_refl).
  - repeat constructor. discriminate.
  - reflexivity.
Defined.

Lemma find_path_sound_witness :
  fst (find_path wiki "Friendship" "Rome" cached)
    = Ok (PyList ["Friendship"; "X"; "Rome"]) /\
  exists start_page_links,
    _get_links wiki "Friendship" = Ok start_page_links /\
    (["Friendship"; "X"; "Rome"] = [] \/
     exists link page,
       ["Friendship"; "X"; "Rome"] = ["Friendship"; link; "Rome"] /\
       In link start_page_links /\
       query_first link (snd (find_path wiki "Friendship" "Rome" cached)) = Some page /\
       In "Rome" (links page)).
Proof.
  split; [reflexivity|].
  apply (find_path_sound wiki "Friendship" "Rome" cached
           ["Friendship"; "X"; "Rome"]
           (snd (find_path wiki "Friendship" "Rome" cached))).
  reflexivity.
Defined.

Lemma find_path_string_outcome_witness :
  find_path wiki "Friendship" "GIBIBIBI" cached
    = (Ok (PyStr "Can't parse wikipedia page GIBIBIBI."), cached) /\
  fails_validation wiki "Friendship" = false /\
  fails_validation wiki "GIBIBIBI" = true.
Proof.
  split; [reflexivity|].
  destruct (find_path_string_outcome wiki "Friendship" "GIBIBIBI" cached
              "Can't parse wikipedia page GIBIBIBI." cached eq_refl)
    as [_ [[H _] | (H1 & _ & H2 & _)]].
  - discriminate H.
  - split; assumption.
Defined.

Lemma find_path_keeps_titles_unique_witness :
  NoDup (map title cached) /\
  NoDup (map title (snd (find_path wiki "Friendship" "Rome" cached))).
Proof.
  assert (H : NoDup (map title cached)).
  { repeat constructor. simpl. auto. }
  split; [exact H|].
  apply (find_path_keeps_titles_unique wiki "Friendship" "Rome" cached H).
Defined.

Lemma find_path_commits_bounded_witness :
  _get_links wiki "Friendship" = Ok ["GIBIBIBI"; "Trust"; "X"; "Y"] /\
  length (snd (find_path wiki "Friendship" "Rome" cached)) <= length cached + 4.
Proof.
  split; [reflexivity|].
  apply (find_path_commits_bounded wiki "Friendship" "Rome" cached
           ["GIBIBIBI"; "Trust"; "X"; "Y"] eq_refl).
Defined.

Lemma cached_search_needs_no_provider_witness :
  for_link wiki "Friendship" ["Trust"] false ["Rome"; "Friendship"] cached =
    for_link (fun _ => None) "Friendship" ["Trust"] false ["Rome"; "Friendship"] cached /\
  snd (for_link wiki "Friendship" ["Trust"] false ["Rome"; "Friendship"] cached) = cached.
Proof.
  apply (cached_search_needs_no_provider wiki (fun _ => None) "Friendship"
           ["Trust"] false ["Rome"; "Friendship"] cached).
  intros l [<- | []]. discriminate.
Defined.

Lemma find_path_store_frame_witness :
  fst (find_path wiki "Friendship" "Rome" cached) =
  fst (find_path wiki "Friendship" "Rome"
         ({| title := "Paris"; links := ["Rome"]; backlinks := [] |} :: cached ++ cached)).
Proof.
  apply (find_path_store_frame wiki "Friendship" "Rome" cached
           ({| title := "Paris"; links := ["Rome"]; backlinks := [] |} :: cached ++ cached)).
  intros start_page_links [= <-] l Hin. simpl in Hin.
  destruct Hin as [<- | [<- | [<- | [<- | []]]]]; reflexivity.
Defined.

Lemma find_path_exceptions_witness :
  find_path (remote_backlinks_down corpus) "Friendship" "Rome" cached
    = (Raise RequestException, cached) /\
  (forall t, RequestException <> InvalidPageException t) /\
  RequestException <> KeyError "links".
Proof.
  split; [reflexivity|].
  apply (find_path_exceptions (remote_backlinks_down corpus) "Friendship" "Rome"
           cached RequestException cached).
  reflexivity.
Defined.
